(** * The Retry pattern: [retryOperation] of src/retry/index.js

    The JavaScript source wraps a promise-returning [operation] and calls it
    again, after [setTimeout(..., delay)], each time its promise rejects,
    until the mutable counter [retries] is used up.

    The embedding is an event-loop machine.  One [step] is one callback that
    the JavaScript host runs to completion: the promise executor, the
    [.then(resolve)] / [.catch(...)] reaction to the operation's promise, or
    the timer callback.  The closure variables [retries] and [delay], the
    state of the outside world the operation acts on, a clock and the trace
    of observable events are carried explicitly in the state.

    [retries] is a JavaScript number that holds an integer, so
    [retries--] is a subtraction of IEEE 754 doubles: exact up to 2^53 and
    rounded above.  [delay] is an integer.  Every call of the operation
    returns a promise, as the contract of the function has it; a promise may
    stay pending for ever.  The host's [setTimeout] is a parameter of the
    machine. *)

From Stdlib Require Import ZArith NArith List String Bool Lia.
From Stdlib Require Import PrimFloat FloatOps Uint63.
Import ListNotations.
Open Scope Z_scope.

(** ** Values of the JavaScript host *)

(** How the promise returned by one call of [operation()] behaves: it is
    fulfilled or rejected [after] some milliseconds, or it stays pending. *)
Inductive Promise (V E : Type) : Type :=
| Fulfills (after : N) (value : V)
| Rejects (after : N) (reason : E)
| NeverSettles.
Arguments Fulfills {V E} after value.
Arguments Rejects {V E} after reason.
Arguments NeverSettles {V E}.

(** [new Error(message)]; [cause] is the field that
    [new Error(message, { cause })] would set. *)
Record JsError (E : Type) : Type := MkError {
  message : string;
  cause : option E
}.
Arguments MkError {E} message cause.
Arguments message {E} j.
Arguments cause {E} j.

(** [new Error("Maximum retries exhausted!")] *)
Definition retries_exhausted {E : Type} : JsError E :=
  MkError "Maximum retries exhausted!" None.

(** An error carries a failure reason when the reason is its [cause]. *)
Definition carries_reason {E : Type} (err : JsError E) (reason : E) : Prop :=
  cause err = Some reason.

(** Outcome kinds, with the failure reason and the value forgotten. *)
Inductive Kind : Type := KFulfils | KRejects | KPending.

Definition kind_of {V E : Type} (p : Promise V E) : Kind :=
  match p with
  | Fulfills _ _ => KFulfils
  | Rejects _ _ => KRejects
  | NeverSettles => KPending
  end.

Definition settles {V E : Type} (p : Promise V E) : Prop :=
  kind_of p <> KPending.

(** *** Numbers

    A JavaScript number is an IEEE 754 double.  The integers that are
    doubles are those of magnitude up to 2^53 and, between 2^e and 2^(e+1)
    for e >= 53, the multiples of 2^(e-52).  An integer that is no double is
    rounded to the nearest one, to the one with the even significand when it
    lies half way between two.  (Overflow to Infinity, from 2^1024 on, is
    not reached by subtracting 1 from a finite number.) *)
Definition round_to_double (z : Z) : Z :=
  let a := Z.abs z in
  if a <=? 2 ^ 53 then z
  else
    let q := 2 ^ (Z.log2 a - 52) in
    let lo := a / q in
    let r := a mod q in
    let m := if 2 * r <? q then lo
             else if q <? 2 * r then lo + 1
             else if Z.even lo then lo else lo + 1 in
    Z.sgn z * (m * q).

(** [retries--] on a number that holds the integer [x]. *)
Definition js_dec (x : Z) : Z := round_to_double (x - 1).

(** The same subtraction on the machine's doubles, for checking [js_dec]
    against it at given numbers. *)
Definition double_of_Z (z : Z) : float :=
  PrimFloat.of_uint63 (Uint63.of_Z z).

Definition Z_of_double (f : float) : option Z :=
  match Prim2SF f with
  | SpecFloat.S754_zero _ => Some 0
  | SpecFloat.S754_finite sign m e =>
      let magnitude := if 0 <=? e then Z.pos m * 2 ^ e
                       else Z.pos m / 2 ^ (- e) in
      Some (if sign then - magnitude else magnitude)
  | _ => None
  end.

Definition double_dec (z : Z) : option Z :=
  Z_of_double (PrimFloat.sub (double_of_Z z) (double_of_Z 1)).

(** ** The machine *)

Section Retry.

Variables V E W : Type.

(** [operation()]: acts on the world and returns a promise. *)
Variable operation : W -> Promise V E * W.

(** The host's timer: [setTimeout(f, ms)] called at time [now] runs [f]
    at time [fires_at now ms]. *)
Variable fires_at : Z -> Z -> Z.

Inductive Event : Type :=
| ConsoleLog (label : string) (n : Z)
| Invoke (t : Z)
| SetTimeout (t : Z) (ms : Z)
| Resolve (value : V)
| Reject (err : JsError E).

Inductive Phase : Type :=
| Idle                              (* retryOperation not called yet *)
| Attempting (p : Promise V E)      (* operation() called, its promise observed *)
| Waiting (wake : Z)                (* setTimeout(attemptOperation, delay) pending *)
| Succeeded (value : V)             (* resolve(value) *)
| Failed (err : JsError E).         (* reject(err) *)

Record State : Type := MkState {
  phase : Phase;
  retries : Z;          (* the parameter [retries], mutated by [retries--] *)
  delay : Z;            (* the parameter [delay] *)
  world : W;
  now : Z;
  trace : list Event    (* newest event first *)
}.

(** function attemptOperation() {
      console.log("Retries Left: ", retries);
      operation().then(resolve).catch(...) } *)
Definition attemptOperation (s : State) : State :=
  let (p, w) := operation (world s) in
  {| phase := Attempting p;
     retries := retries s;
     delay := delay s;
     world := w;
     now := now s;
     trace := Invoke (now s) :: ConsoleLog "Retries Left: " (retries s) :: trace s |}.

(** .then(resolve) *)
Definition on_fulfilled (value : V) (s : State) : State :=
  {| phase := Succeeded value;
     retries := retries s;
     delay := delay s;
     world := world s;
     now := now s;
     trace := Resolve value :: trace s |}.

(** .catch(() => {
      if (retries <= 0) { reject(new Error("Maximum retries exhausted!")); }
      else { retries--; setTimeout(attemptOperation, delay); } })
    The handler takes no parameter: the reason it is called with is
    dropped. *)
Definition on_rejected (_ : E) (s : State) : State :=
  if retries s <=? 0 then
    {| phase := Failed retries_exhausted;
       retries := retries s;
       delay := delay s;
       world := world s;
       now := now s;
       trace := Reject retries_exhausted :: trace s |}
  else
    {| phase := Waiting (fires_at (now s) (delay s));
       retries := js_dec (retries s);
       delay := delay s;
       world := world s;
       now := now s;
       trace := SetTimeout (now s) (delay s) :: trace s |}.

Definition at_time (t : Z) (s : State) : State :=
  {| phase := phase s;
     retries := retries s;
     delay := delay s;
     world := world s;
     now := t;
     trace := trace s |}.

(** One turn of the event loop.  [None]: no callback of this
    [retryOperation] call will ever run again. *)
Definition step (s : State) : option State :=
  match phase s with
  | Idle => Some (attemptOperation s)
  | Attempting (Fulfills dt v) =>
      Some (on_fulfilled v (at_time (now s + Z.of_N dt) s))
  | Attempting (Rejects dt e) =>
      Some (on_rejected e (at_time (now s + Z.of_N dt) s))
  | Attempting NeverSettles => None
  | Waiting wake => Some (attemptOperation (at_time wake s))
  | Succeeded _ => None
  | Failed _ => None
  end.

Fixpoint run (fuel : nat) (s : State) : State :=
  match fuel with
  | O => s
  | S fuel' =>
      match step s with
      | Some s' => run fuel' s'
      | None => s
      end
  end.

(** The state in which [retryOperation(operation, retries, delay)] is
    called at time [t0] in world [w]. *)
Definition idle (w : W) (n d t0 : Z) : State :=
  {| phase := Idle; retries := n; delay := d; world := w; now := t0;
     trace := [] |}.

(** [retryOperation(operation, retries, delay)], observed after [fuel]
    turns of the event loop. *)
Definition retryOperation (fuel : nat) (w : W) (n d t0 : Z) : State :=
  run fuel (idle w n d t0).

(** *** Observations *)

Definition is_invoke (ev : Event) : bool :=
  match ev with Invoke _ => true | _ => false end.

Definition invocations (s : State) : nat :=
  List.length (filter is_invoke (trace s)).

(** Times of the operation's invocations, newest first. *)
Fixpoint invoke_times (evs : list Event) : list Z :=
  match evs with
  | [] => []
  | Invoke t :: evs' => t :: invoke_times evs'
  | _ :: evs' => invoke_times evs'
  end.

(** Times at which a timer was set, newest first. *)
Fixpoint timeout_times (evs : list Event) : list Z :=
  match evs with
  | [] => []
  | SetTimeout t _ :: evs' => t :: timeout_times evs'
  | _ :: evs' => timeout_times evs'
  end.

(** In a newest-first list of times, each one is at least [d] after the
    one before it. *)
Fixpoint spaced (d : Z) (ts : list Z) : Prop :=
  match ts with
  | [] => True
  | t :: older =>
      match older with
      | [] => True
      | t' :: _ => t' + d <= t
      end /\ spaced d older
  end.

Definition terminal (s : State) : bool :=
  match phase s with
  | Succeeded _ | Failed _ => true
  | _ => false
  end.

(** The world before the [i]-th next invocation, and the promise that
    invocation returns (counting from 0). *)
Fixpoint world_after (i : nat) (w : W) : W :=
  match i with
  | O => w
  | S i' => world_after i' (snd (operation w))
  end.

Definition nth_promise (i : nat) (w : W) : Promise V E :=
  fst (operation (world_after i w)).

(** *** Properties of states used below *)

(** A state from which the next turn calls the operation. *)
Definition ready (s : State) : bool :=
  match phase s with
  | Idle | Waiting _ => true
  | _ => false
  end.

(** What the clock and the trace satisfy all along a run with delay [d]. *)
Definition timed (d : Z) (s : State) : Prop :=
  delay s = d
  /\ spaced d (invoke_times (trace s))
  /\ match phase s with
     | Idle => invoke_times (trace s) = []
     | Waiting wake =>
         forall t, hd_error (invoke_times (trace s)) = Some t -> t + d <= wake
     | _ =>
         forall t, hd_error (invoke_times (trace s)) = Some t -> t <= now s
     end.

(** The counter along a run started with [n] retries and delay [d]. *)
Definition counted (n d : Z) (s : State) : Prop :=
  0 <= retries s <= n
  /\ delay s = d
  /\ retries s = n - Z.of_nat (List.length (timeout_times (trace s))).

End Retry.

Arguments Idle {V E}.
Arguments Attempting {V E} p.
Arguments Waiting {V E} wake.
Arguments Succeeded {V E} value.
Arguments Failed {V E} err.
Arguments ConsoleLog {V E} label n.
Arguments Invoke {V E} t.
Arguments SetTimeout {V E} t ms.
Arguments Resolve {V E} value.
Arguments Reject {V E} err.
Arguments invoke_times {V E} evs.
Arguments timeout_times {V E} evs.
Arguments phase {V E W} s.
Arguments retries {V E W} s.
Arguments delay {V E W} s.
Arguments world {V E W} s.
Arguments now {V E W} s.
Arguments trace {V E W} s.
Arguments step {V E W} operation fires_at s.
Arguments run {V E W} operation fires_at fuel s.
Arguments idle {V E W} w n d t0.
Arguments retryOperation {V E W} operation fires_at fuel w n d t0.
Arguments invocations {V E W} s.
Arguments terminal {V E W} s.
Arguments world_after {V E W} operation i w.
Arguments nth_promise {V E W} operation i w.
Arguments ready {V E W} s.
Arguments timed {V E W} d s.
Arguments counted {V E W} n d s.

(** ** Sample operations and a sample host timer *)

(** A timer that runs the callback exactly [ms] after it was set. *)
Definition exact_timer (t ms : Z) : Z := t + Z.max 0 ms.

(** The timer of Node.js: a delay below 1 or above 2^31 - 1 is replaced
    by 1. *)
Definition node_timer (t ms : Z) : Z :=
  t + (if (ms <? 1) || (2147483647 <? ms) then 1 else ms).

(** Rejects with [reason] on every call; the world counts the calls. *)
Definition always_fails (reason : string) (calls : nat)
  : Promise Z string * nat :=
  (Rejects 0%N reason, S calls).

(** Rejects with [reason] on the first [k] calls, then fulfils with [v]. *)
Definition fails_then_succeeds (k : nat) (reason : string) (v : Z)
  (calls : nat) : Promise Z string * nat :=
  (if Nat.ltb calls k then Rejects 2%N reason else Fulfills 3%N v, S calls).

(** Rejects with [reason] on the first [k] calls; the promise of every
    later call stays pending. *)
Definition fails_then_hangs (k : nat) (reason : string) (calls : nat)
  : Promise Z string * nat :=
  (if Nat.ltb calls k then Rejects 2%N reason else NeverSettles, S calls).

(** ** The state machine of the specification *)

Inductive SpecState : Type :=
| SIdle | SAttempting | SWaiting | SSucceeded | SFailed.

Definition spec_state {V E : Type} (ph : Phase V E) : SpecState :=
  match ph with
  | Idle => SIdle
  | Attempting _ => SAttempting
  | Waiting _ => SWaiting
  | Succeeded _ => SSucceeded
  | Failed _ => SFailed
  end.

(** The outcome the machine is waiting for while it is attempting. *)
Definition pending_kind {V E : Type} (ph : Phase V E) : Kind :=
  match ph with
  | Attempting p => kind_of p
  | _ => KPending
  end.

(** The transitions as the specification words them, on the abstract state
    and the counter remainingRetries; [outcome] is how the attempt in
    flight ends:
    Idle -> Attempting on invocation; Attempting -> Succeeded on success;
    Attempting -> Failed on failure when remainingRetries == 0;
    Attempting -> Waiting on failure when remainingRetries > 0, with the
    counter decremented; Waiting -> Attempting; nothing leaves Succeeded
    and Failed. *)
Definition spec_next (st : SpecState) (remaining : Z) (outcome : Kind)
  : option (SpecState * Z) :=
  match st with
  | SIdle => Some (SAttempting, remaining)
  | SAttempting =>
      match outcome with
      | KFulfils => Some (SSucceeded, remaining)
      | KRejects =>
          if remaining =? 0 then Some (SFailed, remaining)
          else if 0 <? remaining then Some (SWaiting, remaining - 1)
          else None
      | KPending => None
      end
  | SWaiting => Some (SAttempting, remaining)
  | SSucceeded => None
  | SFailed => None
  end.

Definition abstract {V E W : Type} (s : State V E W) : SpecState * Z :=
  (spec_state (phase s), retries s).

(** ** Accounting for a whole execution *)

Section Accounting.

Variables V E W : Type.
Variable operation : W -> Promise V E * W.

(** The numbers printed by [console.log("Retries Left: ", retries)], newest
    first. *)
Fixpoint logged (evs : list (Event V E)) : list Z :=
  match evs with
  | [] => []
  | ConsoleLog _ n :: evs' => n :: logged evs'
  | _ :: evs' => logged evs'
  end.

Definition is_settlement (ev : Event V E) : bool :=
  match ev with
  | Resolve _ | Reject _ => true
  | _ => false
  end.

(** How many times [resolve] or [reject] was called. *)
Definition settlements (evs : list (Event V E)) : nat :=
  List.length (filter is_settlement evs).

(** How the timers set, the settlement and the last event go with the
    number of invocations made so far, whatever the counter does. *)
Definition tallied (s : State V E W) : Prop :=
  let k := invocations s in
  let timers := List.length (timeout_times (trace s)) in
  settlements (trace s) = (if terminal s then 1 else 0)%nat
  /\ match phase s with
     | Idle => k = 0%nat /\ timers = 0%nat
     | Waiting _ => timers = k /\ (1 <= k)%nat
     | Attempting _ => S timers = k
     | Succeeded v =>
         S timers = k /\ hd_error (trace s) = Some (Resolve v)
     | Failed err =>
         S timers = k
         /\ hd_error (trace s) = Some (Reject err)
         /\ retries s <= 0
         /\ err = retries_exhausted
     end.

(** What the counter and the log are, in an execution started with [n]
    retries in which every decrement has been exact. *)
Definition accounted (n : Z) (s : State V E W) : Prop :=
  let timers := List.length (timeout_times (trace s)) in
  rev (logged (trace s)) =
    map (fun i => n - Z.of_nat i) (seq 0 (invocations s))
  /\ retries s = n - Z.of_nat timers
  /\ (timers = 0%nat \/ 0 <= retries s).

(** How the state relates to the promises the operation has returned, in an
    execution started in world [w]. *)
Definition faithful (w : W) (s : State V E W) : Prop :=
  let k := invocations s in
  let failed_before (m : nat) :=
    forall i, (i < m)%nat -> kind_of (nth_promise operation i w) = KRejects in
  world s = world_after operation k w
  /\ match phase s with
     | Idle => k = 0%nat
     | Attempting p =>
         p = nth_promise operation (Nat.pred k) w
         /\ failed_before (Nat.pred k)
     | Waiting _ => failed_before k
     | Succeeded v =>
         (exists dt, nth_promise operation (Nat.pred k) w = Fulfills dt v)
         /\ failed_before (Nat.pred k)
     | Failed _ => failed_before k
     end.

(** The clock against the timers set so far, with delay [d] from [t0]. *)
Definition elapsed (d t0 : Z) (s : State V E W) : Prop :=
  delay s = d
  /\ let waited := t0 + d * Z.of_nat (List.length (timeout_times (trace s))) in
     match phase s with
     | Waiting wake => waited <= wake
     | _ => waited <= now s
     end.

End Accounting.

Arguments logged {V E} evs.
Arguments is_settlement {V E} ev.
Arguments settlements {V E} evs.
Arguments tallied {V E W} s.
Arguments accounted {V E W} n s.
Arguments faithful {V E W} operation w s.
Arguments elapsed {V E W} d t0 s.

(** ** The operation and the client of the source file *)

(** [p.then(f)] for a handler [f] that returns a promise: the result settles
    as [f]'s promise does, once [p] is fulfilled; a rejection of [p] is
    passed on. *)
Definition then_ {A B E : Type} (p : Promise A E) (f : A -> Promise B E)
  : Promise B E :=
  match p with
  | Fulfills dt a =>
      match f a with
      | Fulfills dt' b => Fulfills (dt + dt') b
      | Rejects dt' e => Rejects (dt + dt') e
      | NeverSettles => NeverSettles
      end
  | Rejects dt e => Rejects dt e
  | NeverSettles => NeverSettles
  end.

Definition todo_url : string := "https://jsonplaceholder.typicode.com/todos/1".

Section Fetch.

Variables R V E W : Type.

(** The host's [fetch(url)] and [response.json()]. *)
Variable fetch : string -> W -> Promise R E * W.
Variable json : R -> Promise V E.

(** function fetchData() {
      return fetch("https://jsonplaceholder.typicode.com/todos/1").then(
        (response) => response.json()); } *)
Definition fetchData (w : W) : Promise V E * W :=
  let (p, w') := fetch todo_url w in
  (then_ p json, w').

(** A fetch that gives no data: the request is rejected, or the body of
    the response does not parse. *)
Definition gives_no_data (p : Promise R E) : Prop :=
  match p with
  | Fulfills _ r => kind_of (json r) = KRejects
  | Rejects _ _ => True
  | NeverSettles => False
  end.

(** A fetch whose response parses to [v]. *)
Definition gives_data (p : Promise R E) (v : V) : Prop :=
  match p with
  | Fulfills _ r => exists dt, json r = Fulfills dt v
  | _ => False
  end.

(** What the client's reactions print:
    .then((data) => console.log("Finally Data Is Here: ", data))
    .catch(console.log) *)
Inductive Console : Type :=
| LogData (label : string) (data : V)
| LogError (err : JsError E).

Definition client_prints (ph : Phase V E) : option Console :=
  match ph with
  | Succeeded data => Some (LogData "Finally Data Is Here: " data)
  | Failed err => Some (LogError err)
  | _ => None
  end.

(** retryOperation(fetchData, 3, 1), observed after [fuel] turns. *)
Definition client (fires_at : Z -> Z -> Z) (fuel : nat) (w : W) (t0 : Z)
  : State V E W :=
  retryOperation fetchData fires_at fuel w 3 1 t0.

End Fetch.

Arguments fetchData {R V E W} fetch json w.
Arguments gives_no_data {R V E} json p.
Arguments gives_data {R V E} json p v.
Arguments LogData {V E} label data.
Arguments LogError {V E} err.
Arguments client_prints {V E} ph.
Arguments client {R V E W} fetch json fires_at fuel w t0.

(** A sample network: the first request fails, the second is answered with
    a page that is no JSON, later ones with the JSON text of 42. *)
Definition sample_fetch (url : string) (calls : nat)
  : Promise string string * nat :=
  (match calls with
   | O => Rejects 4%N "TypeError: Failed to fetch"%string
   | S O => Fulfills 6%N "<html>"%string
   | _ => Fulfills 6%N "42"%string
   end, S calls).

Definition sample_json (body : string) : Promise Z string :=
  if String.eqb body "42" then Fulfills 1%N 42
  else Rejects 1%N "SyntaxError: Unexpected token"%string.

(** ** Relating two executions *)

Section Pair.

Variables V1 E1 W1 V2 E2 W2 : Type.
Variable op1 : W1 -> Promise V1 E1 * W1.
Variable op2 : W2 -> Promise V2 E2 * W2.

(** From here on the two operations settle the same way, call by call. *)
Definition same_kinds (w1 : W1) (w2 : W2) : Prop :=
  forall i, kind_of (nth_promise op1 i w1) = kind_of (nth_promise op2 i w2).

Definition alike (s1 : State V1 E1 W1) (s2 : State V2 E2 W2) : Prop :=
  spec_state (phase s1) = spec_state (phase s2)
  /\ pending_kind (phase s1) = pending_kind (phase s2)
  /\ retries s1 = retries s2
  /\ invocations s1 = invocations s2
  /\ same_kinds (world s1) (world s2).

End Pair.

Arguments same_kinds {V1 E1 W1 V2 E2 W2} op1 op2 w1 w2.
Arguments alike {V1 E1 W1 V2 E2 W2} op1 op2 s1 s2.

(** ** Facts about one turn and about runs *)

(** Up to 2^53 the subtraction is exact. *)
Lemma js_dec_exact (x : Z) : 0 < x <= 2 ^ 53 -> js_dec x = x - 1.
Proof.
  intros Hx. unfold js_dec, round_to_double. cbv zeta.
  destruct (Z.abs (x - 1) <=? 2 ^ 53) eqn:Hle; [reflexivity|].
  apply Z.leb_gt in Hle. lia.
Qed.

(** [js_dec] agrees with the subtraction of doubles, below 2^53 and where
    the result is rounded. *)
Example js_dec_is_double_subtraction :
  map double_dec
    [1; 3; 2 ^ 53; 2 ^ 53 + 2; 2 ^ 53 + 4; 2 ^ 53 + 6; 2 ^ 54;
     2 ^ 54 + 4; 2 ^ 60; 2 ^ 62]
  = map (fun x => Some (js_dec x))
    [1; 3; 2 ^ 53; 2 ^ 53 + 2; 2 ^ 53 + 4; 2 ^ 53 + 6; 2 ^ 54;
     2 ^ 54 + 4; 2 ^ 60; 2 ^ 62].
Proof. vm_compute. reflexivity. Qed.

(** Above 2^53 the counter loses 2, or nothing. *)
Example js_dec_rounds :
  js_dec (2 ^ 53 + 2) = 2 ^ 53
  /\ js_dec (2 ^ 53 + 4) = 2 ^ 53 + 4
  /\ js_dec (2 ^ 60) = 2 ^ 60.
Proof. vm_compute. auto. Qed.

Section RetryFacts.

Variables V E W : Type.
Variable operation : W -> Promise V E * W.
Variable fires_at : Z -> Z -> Z.

Local Abbreviation State := (State V E W).
Local Abbreviation step := (step operation fires_at).
Local Abbreviation run := (run operation fires_at).
Local Abbreviation attemptOperation := (attemptOperation V E W operation).
Local Abbreviation on_rejected := (on_rejected V E W fires_at).
Local Abbreviation on_fulfilled := (on_fulfilled V E W).
Local Abbreviation at_time := (at_time V E W).
Local Abbreviation nth_promise := (nth_promise operation).
Local Abbreviation world_after := (world_after operation).

Lemma attempt_phase (s : State) :
  phase (attemptOperation s) = Attempting (fst (operation (world s))).
Proof. unfold attemptOperation. destruct (operation (world s)); reflexivity. Qed.

Lemma attempt_world (s : State) :
  world (attemptOperation s) = snd (operation (world s)).
Proof. unfold attemptOperation. destruct (operation (world s)); reflexivity. Qed.

Lemma attempt_retries (s : State) :
  retries (attemptOperation s) = retries s.
Proof. unfold attemptOperation. destruct (operation (world s)); reflexivity. Qed.

Lemma attempt_delay (s : State) :
  delay (attemptOperation s) = delay s.
Proof. unfold attemptOperation. destruct (operation (world s)); reflexivity. Qed.

Lemma attempt_now (s : State) :
  now (attemptOperation s) = now s.
Proof. unfold attemptOperation. destruct (operation (world s)); reflexivity. Qed.

Lemma attempt_trace (s : State) :
  trace (attemptOperation s) =
  Invoke (now s) :: ConsoleLog "Retries Left: " (retries s) :: trace s.
Proof. unfold attemptOperation. destruct (operation (world s)); reflexivity. Qed.

Lemma attempt_invocations (s : State) :
  invocations (attemptOperation s) = S (invocations s).
Proof. unfold invocations. rewrite attempt_trace. reflexivity. Qed.

Lemma step_ready (s : State) :
  ready s = true ->
  exists s', step s = Some s'
    /\ phase s' = Attempting (nth_promise 0 (world s))
    /\ world s' = world_after 1 (world s)
    /\ retries s' = retries s
    /\ delay s' = delay s
    /\ invocations s' = S (invocations s).
Proof.
  unfold ready, step. intros Hr.
  destruct (phase s) eqn:Hp; try discriminate;
    eexists; (split; [reflexivity|]);
    rewrite attempt_phase, attempt_world, attempt_retries, attempt_delay,
      attempt_invocations; cbn; auto.
Qed.

Lemma step_rejected_waits (s : State) (dt : N) (e : E) :
  phase s = Attempting (Rejects dt e) ->
  0 < retries s ->
  exists s', step s = Some s'
    /\ ready s' = true
    /\ phase s' = Waiting (fires_at (now s + Z.of_N dt) (delay s))
    /\ world s' = world s
    /\ retries s' = js_dec (retries s)
    /\ delay s' = delay s
    /\ invocations s' = invocations s.
Proof.
  intros Hp Hr. unfold step. rewrite Hp.
  eexists; split; [reflexivity|].
  unfold on_rejected, ready; cbn.
  destruct (retries s <=? 0) eqn:Hle; [apply Z.leb_le in Hle; lia|].
  cbn. auto 10.
Qed.

Lemma step_rejected_retry (s : State) (dt : N) (e : E) :
  phase s = Attempting (Rejects dt e) ->
  0 < retries s ->
  retries s <= 2 ^ 53 ->
  exists s', step s = Some s'
    /\ ready s' = true
    /\ phase s' = Waiting (fires_at (now s + Z.of_N dt) (delay s))
    /\ world s' = world s
    /\ retries s' = retries s - 1
    /\ delay s' = delay s
    /\ invocations s' = invocations s.
Proof.
  intros Hp Hr Hb.
  destruct (step_rejected_waits s dt e Hp Hr)
    as (s' & Hs & Hready & Hp' & Hw & Hr' & Hd & Hi).
  exists s'. rewrite js_dec_exact in Hr' by lia. auto 10.
Qed.

Lemma step_rejected_exhausted (s : State) (dt : N) (e : E) :
  phase s = Attempting (Rejects dt e) ->
  retries s <= 0 ->
  exists s', step s = Some s'
    /\ phase s' = Failed retries_exhausted
    /\ trace s' = Reject retries_exhausted :: trace s
    /\ world s' = world s
    /\ retries s' = retries s
    /\ delay s' = delay s
    /\ invocations s' = invocations s.
Proof.
  intros Hp Hr. unfold step. rewrite Hp.
  eexists; split; [reflexivity|].
  unfold on_rejected; cbn.
  destruct (retries s <=? 0) eqn:Hle; [|apply Z.leb_gt in Hle; lia].
  cbn. auto 10.
Qed.

Lemma step_fulfilled (s : State) (dt : N) (v : V) :
  phase s = Attempting (Fulfills dt v) ->
  exists s', step s = Some s'
    /\ phase s' = Succeeded v
    /\ trace s' = Resolve v :: trace s
    /\ world s' = world s
    /\ retries s' = retries s
    /\ delay s' = delay s
    /\ invocations s' = invocations s.
Proof.
  intros Hp. unfold step. rewrite Hp.
  eexists; split; [reflexivity|]. cbn. auto 10.
Qed.

Lemma step_terminal (s : State) : terminal s = true -> step s = None.
Proof.
  unfold terminal, step. destruct (phase s); try discriminate; auto.
Qed.

Lemma run_stuck (fuel : nat) (s : State) : step s = None -> run fuel s = s.
Proof. intros H. destruct fuel; cbn; [|rewrite H]; reflexivity. Qed.

Lemma run_terminal (fuel : nat) (s : State) :
  terminal s = true -> run fuel s = s.
Proof. intros H. apply run_stuck, step_terminal, H. Qed.

Lemma run_add (a b : nat) (s : State) : run (a + b) s = run b (run a s).
Proof.
  revert s. induction a as [|a IH]; intros s; cbn; [reflexivity|].
  destruct (step s) eqn:Hs; [apply IH|].
  symmetry. apply run_stuck, Hs.
Qed.

Lemma run_step (fuel : nat) (s s' : State) :
  step s = Some s' -> run (S fuel) s = run fuel s'.
Proof. intros H. cbn. rewrite H. reflexivity. Qed.

(** A property kept by every turn holds all along a run. *)
Lemma run_invariant (P : State -> Prop) :
  (forall s s', P s -> step s = Some s' -> P s') ->
  forall fuel s, P s -> P (run fuel s).
Proof.
  intros Hstep. induction fuel as [|fuel IH]; intros s Hs; cbn; [exact Hs|].
  destruct (step s) eqn:Heq; [|exact Hs].
  apply IH. eapply Hstep; eauto.
Qed.

Lemma kind_rejects (p : Promise V E) :
  kind_of p = KRejects -> exists dt e, p = Rejects dt e.
Proof. destruct p; try discriminate. eauto. Qed.

Lemma kind_fulfils (p : Promise V E) :
  kind_of p = KFulfils -> exists dt v, p = Fulfills dt v.
Proof. destruct p; try discriminate. eauto. Qed.

Lemma nth_promise_shift (i : nat) (w : W) :
  nth_promise i (snd (operation w)) = nth_promise (S i) w.
Proof. reflexivity. Qed.

(** [k] failed attempts in a row, each followed by a timer, take [2 * k]
    turns and leave the machine about to attempt again. *)
Lemma retry_loop (k : nat) : forall s : State,
  ready s = true ->
  Z.of_nat k <= retries s ->
  retries s <= 2 ^ 53 ->
  (forall i, (i < k)%nat -> kind_of (nth_promise i (world s)) = KRejects) ->
  ready (run (2 * k) s) = true
  /\ retries (run (2 * k) s) = retries s - Z.of_nat k
  /\ delay (run (2 * k) s) = delay s
  /\ world (run (2 * k) s) = world_after k (world s)
  /\ invocations (run (2 * k) s) = (invocations s + k)%nat.
Proof.
  induction k as [|k IH]; intros s Hready Hk Hmax Hfail.
  - cbn. repeat split; auto; lia.
  - destruct (step_ready s Hready)
      as (s1 & Hs1 & Hp1 & Hw1 & Hr1 & Hd1 & Hi1).
    destruct (kind_rejects _ (Hfail 0%nat ltac:(lia))) as (dt & e & Hrej).
    rewrite Hrej in Hp1.
    destruct (step_rejected_retry s1 dt e Hp1 ltac:(lia) ltac:(lia))
      as (s2 & Hs2 & Hready2 & _ & Hw2 & Hr2 & Hd2 & Hi2).
    replace (2 * S k)%nat with (S (S (2 * k))) by lia.
    rewrite (run_step _ _ _ Hs1), (run_step _ _ _ Hs2).
    destruct (IH s2 Hready2) as (Ha & Hb & Hc & He & Hf).
    + lia.
    + lia.
    + intros i Hi. rewrite Hw2, Hw1. cbn.
      rewrite nth_promise_shift. apply Hfail. lia.
    + rewrite Ha, Hb, Hc, He, Hf, Hw2, Hw1, Hr2, Hr1, Hd2, Hd1, Hi2, Hi1.
      repeat split; auto; lia.
Qed.

(** The attempt that is fulfilled: two turns, then nothing more. *)
Lemma attempt_succeeds (s : State) (dt : N) (v : V) (fuel : nat) :
  ready s = true ->
  nth_promise 0 (world s) = Fulfills dt v ->
  (2 <= fuel)%nat ->
  phase (run fuel s) = Succeeded v
  /\ invocations (run fuel s) = S (invocations s)
  /\ hd_error (trace (run fuel s)) = Some (Resolve v)
  /\ world (run fuel s) = world_after 1 (world s)
  /\ retries (run fuel s) = retries s.
Proof.
  intros Hready Hp Hfuel.
  destruct (step_ready s Hready) as (s1 & Hs1 & Hp1 & Hw1 & Hr1 & _ & Hi1).
  rewrite Hp in Hp1.
  destruct (step_fulfilled s1 dt v Hp1)
    as (s2 & Hs2 & Hp2 & Ht2 & Hw2 & Hr2 & _ & Hi2).
  destruct fuel as [|[|fuel]]; try lia.
  rewrite (run_step _ _ _ Hs1), (run_step _ _ _ Hs2).
  rewrite run_terminal by (unfold terminal; rewrite Hp2; reflexivity).
  rewrite Hp2, Ht2, Hw2, Hw1, Hr2, Hr1, Hi2, Hi1. auto.
Qed.

(** The attempt that is rejected with the counter used up. *)
Lemma attempt_exhausts (s : State) (dt : N) (e : E) (fuel : nat) :
  ready s = true ->
  nth_promise 0 (world s) = Rejects dt e ->
  retries s <= 0 ->
  (2 <= fuel)%nat ->
  phase (run fuel s) = Failed retries_exhausted
  /\ invocations (run fuel s) = S (invocations s)
  /\ hd_error (trace (run fuel s)) = Some (Reject retries_exhausted)
  /\ world (run fuel s) = world_after 1 (world s)
  /\ retries (run fuel s) = retries s.
Proof.
  intros Hready Hp Hr Hfuel.
  destruct (step_ready s Hready) as (s1 & Hs1 & Hp1 & Hw1 & Hr1 & _ & Hi1).
  rewrite Hp in Hp1.
  destruct (step_rejected_exhausted s1 dt e Hp1 ltac:(lia))
    as (s2 & Hs2 & Hp2 & Ht2 & Hw2 & Hr2 & _ & Hi2).
  destruct fuel as [|[|fuel]]; try lia.
  rewrite (run_step _ _ _ Hs1), (run_step _ _ _ Hs2).
  rewrite run_terminal by (unfold terminal; rewrite Hp2; reflexivity).
  rewrite Hp2, Ht2, Hw2, Hw1, Hr2, Hr1, Hi2, Hi1. auto.
Qed.

Lemma run_split (k fuel : nat) (s : State) :
  (k <= fuel)%nat -> run fuel s = run (fuel - k) (run k s).
Proof.
  intros H. rewrite <- run_add. f_equal. lia.
Qed.

(** [k] failures followed by a success, from any state about to attempt. *)
Lemma fails_then_fulfilled (k : nat) (s : State) (dt : N) (v : V)
  (fuel : nat) :
  ready s = true ->
  Z.of_nat k <= retries s ->
  retries s <= 2 ^ 53 ->
  (forall i, (i < k)%nat -> kind_of (nth_promise i (world s)) = KRejects) ->
  nth_promise k (world s) = Fulfills dt v ->
  (2 * k + 2 <= fuel)%nat ->
  phase (run fuel s) = Succeeded v
  /\ invocations (run fuel s) = (invocations s + k + 1)%nat
  /\ hd_error (trace (run fuel s)) = Some (Resolve v).
Proof.
  intros Hready Hk Hmax Hfail Hok Hfuel.
  destruct (retry_loop k s Hready Hk Hmax Hfail) as (Ha & Hb & Hc & Hd & He).
  rewrite (run_split (2 * k) fuel) by lia.
  destruct (attempt_succeeds (run (2 * k) s) dt v (fuel - 2 * k) Ha)
    as (Hp & Hi & Ht & _); [rewrite Hd; exact Hok | lia |].
  rewrite Hp, Hi, Ht, He. repeat split; auto; lia.
Qed.

(** [k] failures that use the counter up, followed by one more. *)
Lemma fails_until_exhausted (k : nat) (s : State) (fuel : nat) :
  ready s = true ->
  retries s = Z.of_nat k ->
  retries s <= 2 ^ 53 ->
  (forall i, (i <= k)%nat -> kind_of (nth_promise i (world s)) = KRejects) ->
  (2 * k + 2 <= fuel)%nat ->
  phase (run fuel s) = Failed retries_exhausted
  /\ invocations (run fuel s) = (invocations s + k + 1)%nat
  /\ hd_error (trace (run fuel s)) = Some (Reject retries_exhausted).
Proof.
  intros Hready Hk Hmax Hfail Hfuel.
  destruct (retry_loop k s Hready ltac:(lia) Hmax
              (fun i Hi => Hfail i ltac:(lia))) as (Ha & Hb & Hc & Hd & He).
  destruct (kind_rejects _ (Hfail k (le_n k))) as (dt & e & Hrej).
  rewrite (run_split (2 * k) fuel) by lia.
  destruct (attempt_exhausts (run (2 * k) s) dt e (fuel - 2 * k) Ha)
    as (Hp & Hi & Ht & _); [rewrite Hd; exact Hrej | lia | lia |].
  rewrite Hp, Hi, Ht, He. repeat split; auto; lia.
Qed.

Lemma idle_ready (w : W) (n d t0 : Z) : ready (idle w n d t0 : State) = true.
Proof. reflexivity. Qed.

(** ** Exhausting the retries *)

(** C1, as amended: for every maxRetries = n with 0 <= n <= 2^53, an
    operation whose invocations all fail is invoked exactly n + 1 times,
    after which the promise of retryOperation is rejected with the
    retries-exhausted error; this covers n = 0, with exactly one
    invocation.  The result is the same for every number of event-loop
    turns from 2n + 2 on. *)
Theorem always_failing_invoked_n_plus_1 (w : W) (n d t0 : Z) (fuel : nat) :
  0 <= n <= 2 ^ 53 ->
  (forall i, (i <= Z.to_nat n)%nat ->
             kind_of (nth_promise i w) = KRejects) ->
  (2 * Z.to_nat n + 2 <= fuel)%nat ->
  let s := retryOperation operation fires_at fuel w n d t0 in
  phase s = Failed retries_exhausted
  /\ invocations s = (Z.to_nat n + 1)%nat
  /\ hd_error (trace s) = Some (Reject retries_exhausted).
Proof.
  intros Hn Hfail Hfuel. cbn zeta. unfold retryOperation.
  destruct (fails_until_exhausted (Z.to_nat n) (idle w n d t0) fuel)
    as (Hp & Hi & Ht); auto using idle_ready; cbn; lia.
Qed.

(** C2, as amended: for every n with 0 <= n <= 2^53 and k in [0, n], an
    operation that fails on its first k invocations and succeeds on
    invocation k + 1 is invoked exactly k + 1 times, and the promise of
    retryOperation is fulfilled with the very value of that invocation. *)
Theorem fails_k_times_then_succeeds (w : W) (n d t0 : Z) (k : nat)
  (dt : N) (v : V) (fuel : nat) :
  0 <= n <= 2 ^ 53 ->
  (k <= Z.to_nat n)%nat ->
  (forall i, (i < k)%nat -> kind_of (nth_promise i w) = KRejects) ->
  nth_promise k w = Fulfills dt v ->
  (2 * k + 2 <= fuel)%nat ->
  let s := retryOperation operation fires_at fuel w n d t0 in
  phase s = Succeeded v
  /\ invocations s = (k + 1)%nat
  /\ hd_error (trace s) = Some (Resolve v).
Proof.
  intros Hn Hk Hfail Hok Hfuel. cbn zeta. unfold retryOperation.
  destruct (fails_then_fulfilled k (idle w n d t0) dt v fuel)
    as (Hp & Hi & Ht); auto using idle_ready; cbn; lia.
Qed.

(** C3, as amended: whenever the attempt made with the counter at 0 (or
    below) fails, the promise of retryOperation is rejected, for good,
    with the fixed error "Maximum retries exhausted!", which has no cause:
    the same value whatever reason the operation failed with. *)
Theorem exhausted_error_is_fixed (s : State) (dt : N) (e : E) :
  phase s = Attempting (Rejects dt e) ->
  retries s <= 0 ->
  exists s',
    step s = Some s'
    /\ phase s' = Failed (MkError "Maximum retries exhausted!" None)
    /\ hd_error (trace s') =
         Some (Reject (MkError "Maximum retries exhausted!" None))
    /\ invocations s' = invocations s
    /\ step s' = None.
Proof.
  intros Hp Hr.
  destruct (step_rejected_exhausted s dt e Hp Hr)
    as (s' & Hs & Hp' & Ht & _ & _ & _ & Hi).
  exists s'. rewrite Ht. repeat split; auto.
  apply step_terminal. unfold terminal. rewrite Hp'. reflexivity.
Qed.

(** C4: whatever maxRetries is, an operation that succeeds on its first
    invocation is invoked exactly once and the promise of retryOperation
    is fulfilled with its value; and in any state in which a success has
    been observed no turn is left to run, so the operation is never
    invoked again. *)
Theorem first_success_wins (w : W) (n d t0 : Z) (dt : N) (v : V)
  (fuel : nat) :
  nth_promise 0 w = Fulfills dt v ->
  (2 <= fuel)%nat ->
  let s := retryOperation operation fires_at fuel w n d t0 in
  (phase s = Succeeded v
   /\ invocations s = 1%nat
   /\ world s = world_after 1 w)
  /\ (forall (s0 : State) (v0 : V),
        phase s0 = Succeeded v0 ->
        step s0 = None /\ forall more, run more s0 = s0).
Proof.
  intros Hok Hfuel. cbn zeta. unfold retryOperation. split.
  - destruct (attempt_succeeds (idle w n d t0) dt v fuel)
      as (Hp & Hi & _ & Hw & _); auto using idle_ready.
  - intros s0 v0 Hp0.
    assert (Hterm : terminal s0 = true)
      by (unfold terminal; rewrite Hp0; reflexivity).
    split; [apply step_terminal, Hterm|].
    intros more. apply run_terminal, Hterm.
Qed.

(** With the counter at 0 or below, a call whose first attempt fails logs,
    invokes once and rejects: that is the whole trace. *)
Lemma exhausted_at_once (w : W) (n d t0 : Z) (dt : N) (e : E) (fuel : nat) :
  n <= 0 ->
  nth_promise 0 w = Rejects dt e ->
  (2 <= fuel)%nat ->
  trace (run fuel (idle w n d t0)) =
  [Reject retries_exhausted; Invoke t0; ConsoleLog "Retries Left: " n].
Proof.
  intros Hn Hrej Hfuel.
  destruct fuel as [|[|fuel]]; try lia.
  set (s1 := attemptOperation (idle w n d t0)).
  assert (Hs1 : step (idle w n d t0) = Some s1) by reflexivity.
  assert (Hp1 : phase s1 = Attempting (Rejects dt e)).
  { unfold s1. rewrite attempt_phase. cbn. f_equal. exact Hrej. }
  destruct (step_rejected_exhausted s1 dt e Hp1)
    as (s2 & Hs2 & Hp2 & Ht2 & _).
  { unfold s1. rewrite attempt_retries. exact Hn. }
  rewrite (run_step _ _ _ Hs1), (run_step _ _ _ Hs2).
  rewrite run_terminal by (unfold terminal; rewrite Hp2; reflexivity).
  rewrite Ht2. unfold s1. rewrite attempt_trace. reflexivity.
Qed.

(** C10: for every retries < 0, an operation whose first invocation fails
    is invoked exactly once and the promise of retryOperation is rejected
    with the retries-exhausted error, as it is for retries = 0: the test
    is [retries <= 0].  The two executions have the same events, but for
    the number that is logged. *)
Theorem negative_retries_like_zero (w : W) (n d t0 : Z) (fuel : nat) :
  n < 0 ->
  kind_of (nth_promise 0 w) = KRejects ->
  (2 <= fuel)%nat ->
  let s := retryOperation operation fires_at fuel w n d t0 in
  let z := retryOperation operation fires_at fuel w 0 d t0 in
  phase s = Failed retries_exhausted
  /\ invocations s = 1%nat
  /\ phase z = phase s
  /\ invocations z = invocations s
  /\ world z = world s
  /\ trace s =
       [Reject retries_exhausted; Invoke t0; ConsoleLog "Retries Left: " n]
  /\ trace z =
       [Reject retries_exhausted; Invoke t0; ConsoleLog "Retries Left: " 0].
Proof.
  intros Hn Hfail Hfuel. cbn zeta. unfold retryOperation.
  destruct (kind_rejects _ Hfail) as (dt & e & Hrej).
  destruct (attempt_exhausts (idle w n d t0) dt e fuel)
    as (Hp & Hi & _ & Hw & _); auto using idle_ready; [cbn; lia|].
  destruct (attempt_exhausts (idle w 0 d t0) dt e fuel)
    as (Hp0 & Hi0 & _ & Hw0 & _); auto using idle_ready; [cbn; lia|].
  rewrite Hp, Hi, Hw, Hp0, Hi0, Hw0.
  rewrite (exhausted_at_once w n d t0 dt e fuel) by (auto; lia).
  rewrite (exhausted_at_once w 0 d t0 dt e fuel) by (auto; lia).
  repeat split; reflexivity.
Qed.

(** ** Timing *)

Lemma spaced_cons (d t : Z) (ts : list Z) :
  spaced d ts ->
  (forall t', hd_error ts = Some t' -> t' + d <= t) ->
  spaced d (t :: ts).
Proof.
  intros Hs Hhd. cbn. split; [|exact Hs].
  destruct ts as [|t' ts]; [exact I|]. apply Hhd. reflexivity.
Qed.

Lemma timed_step (d : Z) (s s' : State) :
  (forall t, t + d <= fires_at t d) ->
  timed d s -> step s = Some s' -> timed d s'.
Proof.
  intros Htimer (Hd & Hsp & Hph) Hstep. unfold step in Hstep.
  destruct (phase s) as [|[dt v|dt e|]|wake|v|err] eqn:Hp;
    inversion Hstep; subst s'; clear Hstep; unfold timed.
  - rewrite attempt_delay, attempt_phase, attempt_trace, attempt_now. cbn.
    rewrite Hph. repeat split; auto. intros t Ht. inversion Ht. lia.
  - cbn. repeat split; auto.
    intros t Ht. specialize (Hph t Ht). lia.
  - unfold on_rejected. cbn.
    destruct (retries s <=? 0); cbn; rewrite ?Hp; repeat split; auto;
      intros t Ht; specialize (Hph t Ht).
    + lia.
    + rewrite Hd. specialize (Htimer (now s + Z.of_N dt)). lia.
  - rewrite attempt_delay, attempt_phase, attempt_trace, attempt_now. cbn.
    repeat split; auto.
    + destruct (invoke_times (trace s)) as [|t' ts]; [exact I|].
      apply Hph. reflexivity.
    + intros t Ht. inversion Ht. lia.
Qed.

Lemma step_extends_trace (s s' : State) :
  step s = Some s' -> exists evs, trace s' = evs ++ trace s.
Proof.
  intros Hstep. unfold step in Hstep.
  destruct (phase s) as [|[dt v|dt e|]|wake|v|err] eqn:Hp;
    inversion Hstep; subst s'; clear Hstep.
  - rewrite attempt_trace. eexists [_; _]. reflexivity.
  - eexists [_]. reflexivity.
  - unfold on_rejected. cbn.
    destruct (retries s <=? 0); eexists [_]; reflexivity.
  - rewrite attempt_trace. eexists [_; _]. reflexivity.
Qed.

Lemma run_extends_trace (fuel : nat) (s : State) :
  exists evs, trace (run fuel s) = evs ++ trace s.
Proof.
  apply (run_invariant
           (fun s1 => forall base, (exists evs, trace s = evs ++ base) ->
                                   exists evs, trace s1 = evs ++ base)).
  - intros s1 s2 IH Hstep base Hbase.
    destruct (IH base Hbase) as (evs1 & H1).
    destruct (step_extends_trace s1 s2 Hstep) as (evs2 & H2).
    exists (evs2 ++ evs1). rewrite H2, H1. apply app_assoc.
  - auto.
  - exists []. reflexivity.
Qed.


(** ** The counter and the state machine *)

(** What one turn does to [retries], [delay] and the timers set, while the
    counter is within the exact range. *)
Lemma step_counter (s s' : State) :
  retries s <= 2 ^ 53 ->
  step s = Some s' ->
  delay s' = delay s
  /\ ((retries s' = retries s
       /\ timeout_times (trace s') = timeout_times (trace s))
      \/ (0 < retries s
          /\ retries s' = retries s - 1
          /\ (exists dt e, phase s = Attempting (Rejects dt e))
          /\ spec_state (phase s') = SWaiting
          /\ exists t,
               timeout_times (trace s') = t :: timeout_times (trace s))).
Proof.
  intros Hmax Hstep. unfold step in Hstep.
  destruct (phase s) as [|[dt v|dt e|]|wake|v|err] eqn:Hp;
    inversion Hstep; subst s'; clear Hstep.
  - rewrite attempt_delay, attempt_retries, attempt_trace. cbn. auto.
  - cbn. auto.
  - unfold on_rejected. cbn.
    destruct (retries s <=? 0) eqn:Hle; cbn; [auto|].
    apply Z.leb_gt in Hle. split; [reflexivity|]. right.
    rewrite js_dec_exact by lia.
    repeat split; eauto.
  - rewrite attempt_delay, attempt_retries, attempt_trace. cbn. auto.
Qed.

Lemma counted_step (n d : Z) (s s' : State) :
  n <= 2 ^ 53 ->
  counted n d s -> step s = Some s' -> counted n d s'.
Proof.
  intros Hmax (Hr & Hd & Ht) Hstep.
  destruct (step_counter s s' ltac:(lia) Hstep)
    as (Hd' & [(Hr' & Ht') | (Hpos & Hr' & _ & _ & t & Ht')]);
    unfold counted; rewrite Hd', Hr', Ht'; cbn [List.length];
    repeat split; auto; lia.
Qed.

Lemma counted_run (w : W) (n d t0 : Z) (fuel : nat) :
  0 <= n <= 2 ^ 53 -> counted n d (run fuel (idle w n d t0)).
Proof.
  intros Hn. apply (run_invariant (counted n d)).
  - intros s1 s2. apply counted_step. lia.
  - unfold counted. cbn. lia.
Qed.

(** With a counter between 0 and 2^53, a turn of the code is the transition
    of the specification's machine. *)
Lemma step_refines_spec (s : State) :
  0 <= retries s <= 2 ^ 53 ->
  option_map abstract (step s) =
  spec_next (spec_state (phase s)) (retries s) (pending_kind (phase s)).
Proof.
  intros Hr. unfold step, abstract.
  destruct (phase s) as [|[dt v|dt e|]|wake|v|err] eqn:Hp; cbn;
    rewrite ?attempt_phase, ?attempt_retries; cbn; try reflexivity.
  unfold on_rejected. cbn.
  destruct (retries s <=? 0) eqn:Hle; cbn.
  - apply Z.leb_le in Hle.
    replace (retries s =? 0) with true by (symmetry; apply Z.eqb_eq; lia).
    reflexivity.
  - apply Z.leb_gt in Hle.
    replace (retries s =? 0) with false by (symmetry; apply Z.eqb_neq; lia).
    replace (0 <? retries s) with true by (symmetry; apply Z.ltb_lt; lia).
    rewrite js_dec_exact by lia. reflexivity.
Qed.

Lemma step_invokes_from_ready (s s' : State) :
  step s = Some s' ->
  (ready s = true /\ invocations s' = S (invocations s)
   /\ spec_state (phase s') = SAttempting)
  \/ (ready s = false /\ invocations s' = invocations s
      /\ spec_state (phase s') <> SAttempting).
Proof.
  intros Hstep. unfold step in Hstep. unfold ready.
  destruct (phase s) as [|[dt v|dt e|]|wake|v|err] eqn:Hp;
    inversion Hstep; subst s'; clear Hstep.
  - left. rewrite attempt_invocations, attempt_phase. auto.
  - right. cbn. repeat split; auto. discriminate.
  - right. unfold on_rejected. cbn.
    destruct (retries s <=? 0); cbn; repeat split; auto; discriminate.
  - left. rewrite attempt_invocations, attempt_phase. auto.
Qed.

(** C6, as amended: in every state that an execution started with
    0 <= maxRetries <= 2^53 reaches, the next turn of the code is the transition that the state
    machine {Idle, Attempting, Waiting, Succeeded, Failed} prescribes; a
    failure with retries left goes from Attempting to Waiting and
    decrements the counter, which changes on no other transition; the
    operation is invoked only on leaving Idle or Waiting, for every delay,
    0 included; and nothing leaves Succeeded and Failed. *)
Theorem follows_state_machine (w : W) (n d t0 : Z) (fuel : nat) :
  0 <= n <= 2 ^ 53 ->
  let s := retryOperation operation fires_at fuel w n d t0 in
  option_map abstract (step s) =
    spec_next (spec_state (phase s)) (retries s) (pending_kind (phase s))
  /\ (forall dt e,
        phase s = Attempting (Rejects dt e) -> 0 < retries s ->
        exists s', step s = Some s'
                   /\ spec_state (phase s') = SWaiting
                   /\ retries s' = retries s - 1)
  /\ (forall s',
        step s = Some s' -> retries s' <> retries s ->
        spec_state (phase s) = SAttempting
        /\ spec_state (phase s') = SWaiting
        /\ retries s' = retries s - 1)
  /\ (forall s',
        step s = Some s' ->
        spec_state (phase s') = SAttempting
        \/ invocations s' <> invocations s ->
        (spec_state (phase s) = SIdle \/ spec_state (phase s) = SWaiting)
        /\ invocations s' = S (invocations s))
  /\ (terminal s = true ->
      step s = None /\ forall more, run more s = s).
Proof.
  intros Hn. cbn zeta. unfold retryOperation.
  set (s := run fuel (idle w n d t0)).
  destruct (counted_run w n d t0 fuel Hn) as (Hr & _ & _).
  fold s in Hr. split; [apply step_refines_spec; lia|].
  split; [|split; [|split]].
  - intros dt e Hp Hpos.
    destruct (step_rejected_retry s dt e Hp Hpos ltac:(lia))
      as (s' & Hs & _ & Hp' & _ & Hr' & _).
    exists s'. rewrite Hp'. auto.
  - intros s' Hstep Hneq.
    destruct (step_counter s s' ltac:(lia) Hstep)
      as (_ & [(Hr' & _) | (_ & Hr' & (dt & e & Hp) & Hp' & _)]);
      [contradiction|].
    rewrite Hp. auto.
  - intros s' Hstep Hor.
    destruct (step_invokes_from_ready s s' Hstep)
      as [(Hready & Hi & _) | (_ & Hi & Hp')].
    + split; [|exact Hi]. unfold ready in Hready.
      destruct (phase s); try discriminate; cbn; auto.
    + destruct Hor; contradiction.
  - intros Hterm. split; [apply step_terminal, Hterm|].
    intros more. apply run_terminal, Hterm.
Qed.

(** C9, as amended: all along an execution started with maxRetries = n,
    0 <= n <= 2^53, the counter stays between 0 and n and [delay] keeps its
    initial value; the counter is n minus the number of timers set so far;
    every failed attempt with retries left sets a timer for a new attempt
    and takes exactly 1 off the counter, a failed attempt with the counter
    at 0 rejects and leaves it at 0, and no other turn changes it. *)
Theorem retries_never_negative (w : W) (n d t0 : Z) (fuel : nat) :
  0 <= n <= 2 ^ 53 ->
  let s := retryOperation operation fires_at fuel w n d t0 in
  0 <= retries s <= n
  /\ delay s = d
  /\ retries s = n - Z.of_nat (List.length (timeout_times (trace s)))
  /\ (forall dt e,
        phase s = Attempting (Rejects dt e) -> 0 < retries s ->
        exists s', step s = Some s'
                   /\ retries s' = retries s - 1
                   /\ spec_state (phase s') = SWaiting
                   /\ delay s' = d)
  /\ (forall dt e,
        phase s = Attempting (Rejects dt e) -> retries s = 0 ->
        exists s', step s = Some s'
                   /\ retries s' = 0
                   /\ spec_state (phase s') = SFailed)
  /\ forall s',
       step s = Some s' ->
       delay s' = d
       /\ 0 <= retries s'
       /\ (retries s' = retries s
           \/ (0 < retries s
               /\ retries s' = retries s - 1
               /\ (exists dt e, phase s = Attempting (Rejects dt e))
               /\ spec_state (phase s') = SWaiting)).
Proof.
  intros Hn. cbn zeta. unfold retryOperation.
  set (s := run fuel (idle w n d t0)).
  pose proof (counted_run w n d t0 fuel Hn) as Hc. fold s in Hc.
  destruct Hc as (Hr & Hd & Ht).
  split; [exact Hr|]. split; [exact Hd|]. split; [exact Ht|].
  split; [|split].
  - intros dt e Hp Hpos.
    destruct (step_rejected_retry s dt e Hp Hpos ltac:(lia))
      as (s' & Hs & _ & Hp' & _ & Hr' & Hd' & _).
    exists s'. rewrite Hp'. repeat split; auto. congruence.
  - intros dt e Hp Hzero.
    destruct (step_rejected_exhausted s dt e Hp ltac:(lia))
      as (s' & Hs & Hp' & _ & _ & Hr' & _).
    exists s'. rewrite Hp'. repeat split; auto. congruence.
  - intros s' Hstep.
    destruct (step_counter s s' ltac:(lia) Hstep)
      as (Hd' & [(Hr' & _) | (Hpos & Hr' & Hp & Hp' & _)]).
    + split; [congruence|]. split; [lia|]. left. exact Hr'.
    + split; [congruence|]. split; [lia|]. right. auto.
Qed.

(** ** Termination *)

Lemma settles_within (m : nat) : forall s : State,
  ready s = true ->
  retries s = Z.of_nat m ->
  retries s <= 2 ^ 53 ->
  (forall i, (i <= m)%nat -> settles (nth_promise i (world s))) ->
  terminal (run (2 * m + 2) s) = true
  /\ (invocations s < invocations (run (2 * m + 2) s)
      <= invocations s + m + 1)%nat.
Proof.
  induction m as [|m IH]; intros s Hready Hr Hmax Hsettle;
    destruct (nth_promise 0 (world s)) as [dt v|dt e|] eqn:Hp0;
    try (exfalso; apply (Hsettle 0%nat ltac:(lia)); rewrite Hp0; reflexivity).
  - destruct (attempt_succeeds s dt v (2 * 0 + 2) Hready Hp0 ltac:(lia))
      as (Hp & Hi & _).
    unfold terminal. rewrite Hp, Hi. split; [reflexivity | lia].
  - destruct (attempt_exhausts s dt e (2 * 0 + 2) Hready Hp0
                ltac:(lia) ltac:(lia)) as (Hp & Hi & _).
    unfold terminal. rewrite Hp, Hi. split; [reflexivity | lia].
  - destruct (attempt_succeeds s dt v (2 * S m + 2) Hready Hp0 ltac:(lia))
      as (Hp & Hi & _).
    unfold terminal. rewrite Hp, Hi. split; [reflexivity | lia].
  - destruct (step_ready s Hready)
      as (s1 & Hs1 & Hp1 & Hw1 & Hr1 & _ & Hi1).
    rewrite Hp0 in Hp1.
    destruct (step_rejected_retry s1 dt e Hp1 ltac:(lia) ltac:(lia))
      as (s2 & Hs2 & Hready2 & _ & Hw2 & Hr2 & _ & Hi2).
    replace (2 * S m + 2)%nat with (S (S (2 * m + 2))) by lia.
    rewrite (run_step _ _ _ Hs1), (run_step _ _ _ Hs2).
    destruct (IH s2 Hready2) as (Hterm & Hinv).
    + lia.
    + lia.
    + intros i Hi. rewrite Hw2, Hw1. cbn.
      rewrite nth_promise_shift. apply Hsettle. lia.
    + split; [exact Hterm | lia].
Qed.

(** C7, as amended: for every maxRetries = n with 0 <= n <= 2^53 and every
    operation whose first n + 1 invocations settle, whichever way each of them does,
    retryOperation has settled after 2n + 2 turns of the event loop, with
    at least one and at most n + 1 invocations of the operation, and
    stays as it is from then on. *)
Theorem retry_terminates (w : W) (n d t0 : Z) :
  0 <= n <= 2 ^ 53 ->
  (forall i, (i <= Z.to_nat n)%nat -> settles (nth_promise i w)) ->
  let bound := (2 * Z.to_nat n + 2)%nat in
  let s := retryOperation operation fires_at bound w n d t0 in
  terminal s = true
  /\ (1 <= invocations s <= Z.to_nat n + 1)%nat
  /\ forall fuel, (bound <= fuel)%nat ->
                  retryOperation operation fires_at fuel w n d t0 = s.
Proof.
  intros Hn Hsettle. cbn zeta. unfold retryOperation.
  destruct (settles_within (Z.to_nat n) (idle w n d t0)) as (Hterm & Hinv);
    auto using idle_ready; try (cbn; lia).
  change (invocations (idle w n d t0)) with 0%nat in Hinv.
  split; [exact Hterm|]. split; [lia|].
  intros fuel Hfuel.
  rewrite (run_split (2 * Z.to_nat n + 2) fuel) by exact Hfuel.
  apply run_terminal, Hterm.
Qed.

(** ** Counters above 2^53 *)

(** A counter that its decrement leaves unchanged is never used up. *)
Lemma stuck_counter_never_rejects (r : Z) (s : State) (fuel : nat) :
  0 < r -> js_dec r = r ->
  retries s = r ->
  (forall err, phase s <> Failed err) ->
  retries (run fuel s) = r /\ forall err, phase (run fuel s) <> Failed err.
Proof.
  intros Hpos Hfix Hr Hph.
  apply (run_invariant
           (fun s1 => retries s1 = r /\ forall err, phase s1 <> Failed err));
    [|auto].
  clear s Hr Hph. intros s s' (Hr & Hph) Hstep. unfold step in Hstep.
  destruct (phase s) as [|[dt v|dt e|]|wake|v|err] eqn:Hp;
    inversion Hstep; subst s'; clear Hstep.
  - rewrite attempt_retries, attempt_phase. split; [exact Hr | discriminate].
  - cbn. split; [exact Hr | discriminate].
  - unfold on_rejected. cbn.
    destruct (retries s <=? 0) eqn:Hle; [apply Z.leb_le in Hle; lia|].
    cbn. rewrite Hr. split; [exact Hfix | discriminate].
  - rewrite attempt_retries, attempt_phase. cbn.
    split; [exact Hr | discriminate].
Qed.

(** With such a counter and an operation that always fails, the call never
    settles. *)
Lemma stuck_counter_never_settles (r : Z) (s : State) (fuel : nat) :
  0 < r -> js_dec r = r ->
  (forall w, kind_of (fst (operation w)) = KRejects) ->
  retries s = r ->
  ready s = true ->
  terminal (run fuel s) = false.
Proof.
  intros Hpos Hfix Hop Hr Hready.
  apply (run_invariant
           (fun s1 => retries s1 = r
                      /\ (ready s1 = true
                          \/ exists dt e, phase s1 = Attempting (Rejects dt e))
                      /\ terminal s1 = false));
    [| unfold terminal, ready in *; destruct (phase s);
       try discriminate; auto].
  clear s Hr Hready. intros s s' (Hr & Hph & _) Hstep.
  destruct Hph as [Hready | (dt & e & Hp)].
  - destruct (step_ready s Hready) as (s1 & Hs1 & Hp1 & _ & Hr1 & _).
    rewrite Hstep in Hs1. inversion Hs1; subst s1.
    destruct (kind_rejects _ (Hop (world s))) as (dt & e & Hrej).
    unfold nth_promise in Hp1. cbn in Hp1. rewrite Hrej in Hp1.
    unfold terminal. rewrite Hp1. split; [congruence|]. split; eauto.
  - destruct (step_rejected_waits s dt e Hp ltac:(lia))
      as (s1 & Hs1 & Hready1 & Hp1 & _ & Hr1 & _).
    rewrite Hstep in Hs1. inversion Hs1; subst s1.
    unfold terminal. rewrite Hp1. split; [congruence|]. auto.
Qed.

(** From 2^53 + 2 the first decrement takes 2 off, so one retry of the
    2^53 + 2 is lost: [K] = 2^53 + 2 failures exhaust the counter. *)
Lemma short_budget (K : nat) (s : State) (fuel : nat) :
  ready s = true ->
  retries s = 2 ^ 53 + 2 ->
  Z.of_nat K = 2 ^ 53 + 2 ->
  (forall i, (i < K)%nat -> kind_of (nth_promise i (world s)) = KRejects) ->
  (2 * K <= fuel)%nat ->
  phase (run fuel s) = Failed retries_exhausted
  /\ invocations (run fuel s) = (invocations s + K)%nat.
Proof.
  intros Hready Hr HK Hfail Hfuel.
  destruct (step_ready s Hready) as (s1 & Hs1 & Hp1 & Hw1 & Hr1 & _ & Hi1).
  destruct (kind_rejects _ (Hfail 0%nat ltac:(lia))) as (dt & e & Hrej).
  rewrite Hrej in Hp1.
  destruct (step_rejected_waits s1 dt e Hp1 ltac:(lia))
    as (s2 & Hs2 & Hready2 & _ & Hw2 & Hr2 & _ & Hi2).
  assert (Hr2' : retries s2 = 2 ^ 53).
  { rewrite Hr2, Hr1, Hr. vm_compute. reflexivity. }
  destruct fuel as [|[|fuel]]; try lia.
  rewrite (run_step _ _ _ Hs1), (run_step _ _ _ Hs2).
  destruct (fails_until_exhausted (K - 2) s2 fuel Hready2)
    as (Hp & Hi & _); try lia.
  - intros i Hi. rewrite Hw2, Hw1. cbn.
    rewrite nth_promise_shift. apply Hfail. lia.
  - split; [exact Hp | lia].
Qed.

Lemma short_budget_from_idle (K : nat) (w : W) (d t0 : Z) (fuel : nat) :
  Z.of_nat K = 2 ^ 53 + 2 ->
  (forall i, (i < K)%nat -> kind_of (nth_promise i w) = KRejects) ->
  (2 * K <= fuel)%nat ->
  phase (retryOperation operation fires_at fuel w (2 ^ 53 + 2) d t0)
    = Failed retries_exhausted
  /\ invocations (retryOperation operation fires_at fuel w (2 ^ 53 + 2) d t0)
     = K.
Proof.
  intros HK Hfail Hfuel. unfold retryOperation.
  destruct (short_budget K (idle w (2 ^ 53 + 2) d t0) fuel)
    as (Hp & Hi); auto using idle_ready.
Qed.

(** ** Accounting for a whole execution *)

Lemma attempt_logged (s : State) :
  logged (trace (attemptOperation s)) = retries s :: logged (trace s).
Proof. rewrite attempt_trace. reflexivity. Qed.

Lemma attempt_timeouts (s : State) :
  timeout_times (trace (attemptOperation s)) = timeout_times (trace s).
Proof. rewrite attempt_trace. reflexivity. Qed.

Lemma attempt_settlements (s : State) :
  settlements (trace (attemptOperation s)) = settlements (trace s).
Proof. rewrite attempt_trace. reflexivity. Qed.

Lemma attempt_terminal (s : State) : terminal (attemptOperation s) = false.
Proof. unfold terminal. rewrite attempt_phase. reflexivity. Qed.

Lemma countdown_next (n : Z) (k : nat) (logs : list Z) :
  rev logs = map (fun i => n - Z.of_nat i) (seq 0 k) ->
  rev ((n - Z.of_nat k) :: logs) =
  map (fun i => n - Z.of_nat i) (seq 0 (S k)).
Proof.
  intros H. rewrite seq_S, map_app. cbn [rev map Nat.add]. rewrite H.
  reflexivity.
Qed.

Lemma tallied_attempt (s : State) :
  settlements (trace s) = 0%nat ->
  List.length (timeout_times (trace s)) = invocations s ->
  tallied (attemptOperation s).
Proof.
  intros Hset Htm. unfold tallied.
  rewrite attempt_settlements, attempt_terminal, attempt_invocations,
    attempt_timeouts, attempt_phase.
  split; [exact Hset | congruence].
Qed.

Lemma tallied_step (s s' : State) :
  tallied s -> step s = Some s' -> tallied s'.
Proof.
  intros (Hset & Hph) Hstep. unfold step in Hstep.
  unfold terminal in Hset.
  destruct (phase s) as [|[dt v|dt e|]|wake|v|err] eqn:Hp;
    inversion Hstep; subst s'; clear Hstep.
  - destruct Hph as (Hk & Htm). apply tallied_attempt; congruence.
  - unfold tallied, settlements, terminal, invocations in *. cbn.
    rewrite Hset. auto.
  - unfold tallied, settlements, terminal, invocations, on_rejected in *.
    cbn. destruct (retries s <=? 0) eqn:Hle; cbn.
    + apply Z.leb_le in Hle. rewrite Hset. auto.
    + split; [exact Hset|]. split; [exact Hph | lia].
  - destruct Hph as (Htm & Hk).
    apply (tallied_attempt (at_time wake s)); cbn; auto.
Qed.

Lemma tallied_run (w : W) (n d t0 : Z) (fuel : nat) :
  tallied (run fuel (idle w n d t0)).
Proof.
  apply (run_invariant tallied).
  - intros s1 s2. apply tallied_step.
  - unfold tallied. cbn. auto.
Qed.

Lemma accounted_attempt (n : Z) (s : State) :
  accounted n s ->
  List.length (timeout_times (trace s)) = invocations s ->
  accounted n (attemptOperation s).
Proof.
  intros (Hlog & Hr & Hsign) Htm. unfold accounted.
  rewrite attempt_logged, attempt_invocations, attempt_timeouts,
    attempt_retries.
  split; [|auto].
  rewrite Hr, Htm. apply countdown_next. exact Hlog.
Qed.

Lemma accounted_step (n : Z) (s s' : State) :
  n <= 2 ^ 53 ->
  tallied s -> accounted n s -> step s = Some s' -> accounted n s'.
Proof.
  intros Hmax (_ & Hph) Hacc Hstep. unfold step in Hstep.
  destruct (phase s) as [|[dt v|dt e|]|wake|v|err] eqn:Hp;
    inversion Hstep; subst s'; clear Hstep.
  - apply accounted_attempt; [exact Hacc | lia].
  - exact Hacc.
  - destruct Hacc as (Hlog & Hr & Hsign).
    unfold accounted, invocations, on_rejected in *. cbn.
    destruct (retries s <=? 0) eqn:Hle; cbn; [auto|].
    apply Z.leb_gt in Hle. rewrite js_dec_exact by lia.
    split; [exact Hlog|]. split; lia.
  - apply (accounted_attempt n (at_time wake s)); [exact Hacc|].
    cbn. tauto.
Qed.

Lemma accounted_run (w : W) (n d t0 : Z) (fuel : nat) :
  n <= 2 ^ 53 ->
  accounted n (run fuel (idle w n d t0)).
Proof.
  intros Hmax.
  apply (run_invariant (fun s => tallied s /\ accounted n s)).
  - intros s1 s2 (Ht & Ha) Hstep.
    split; [eapply tallied_step | eapply accounted_step]; eauto.
  - unfold tallied, accounted. cbn. repeat split; auto; lia.
Qed.

Lemma world_after_next (k : nat) : forall w : W,
  snd (operation (world_after k w)) = world_after (S k) w.
Proof.
  induction k as [|k IH]; intros w; [reflexivity|].
  cbn. rewrite IH. reflexivity.
Qed.

Lemma faithful_attempt (w : W) (s : State) :
  world s = world_after (invocations s) w ->
  (forall i, (i < invocations s)%nat ->
             kind_of (nth_promise i w) = KRejects) ->
  faithful operation w (attemptOperation s).
Proof.
  intros Hw Hfail. unfold faithful.
  rewrite attempt_world, attempt_invocations, attempt_phase, Hw.
  cbn [Nat.pred]. split; [apply world_after_next|].
  split; [reflexivity | exact Hfail].
Qed.

Lemma faithful_step (w : W) (s s' : State) :
  faithful operation w s -> step s = Some s' -> faithful operation w s'.
Proof.
  intros (Hw & Hph) Hstep. unfold step in Hstep.
  destruct (phase s) as [|[dt v|dt e|]|wake|v|err] eqn:Hp;
    inversion Hstep; subst s'; clear Hstep.
  - apply faithful_attempt; [exact Hw|]. rewrite Hph. intros i Hi. lia.
  - destruct Hph as (Hprom & Hfail).
    unfold faithful, invocations in *. cbn. eauto.
  - destruct Hph as (Hprom & Hfail).
    assert (Hall : forall i, (i < invocations s)%nat ->
                             kind_of (nth_promise i w) = KRejects).
    { intros i Hi.
      destruct (Nat.eq_dec i (Nat.pred (invocations s))) as [->|Hne].
      - rewrite <- Hprom. reflexivity.
      - apply Hfail. lia. }
    unfold faithful, invocations, on_rejected in *. cbn.
    destruct (retries s <=? 0); cbn; auto.
  - apply (faithful_attempt w (at_time wake s)); cbn; auto.
Qed.

Lemma faithful_run (w : W) (n d t0 : Z) (fuel : nat) :
  faithful operation w (run fuel (idle w n d t0)).
Proof.
  apply (run_invariant (faithful operation w)).
  - intros s1 s2. apply faithful_step.
  - unfold faithful. cbn. auto.
Qed.

Lemma elapsed_step (d t0 : Z) (s s' : State) :
  (forall t, t + d <= fires_at t d) ->
  elapsed d t0 s -> step s = Some s' -> elapsed d t0 s'.
Proof.
  intros Htimer (Hd & Hph) Hstep. unfold step in Hstep. cbn zeta in Hph.
  destruct (phase s) as [|[dt v|dt e|]|wake|v|err] eqn:Hp;
    inversion Hstep; subst s'; clear Hstep; unfold elapsed; cbn zeta.
  - rewrite attempt_delay, attempt_timeouts, attempt_phase, attempt_now.
    auto.
  - cbn. split; [exact Hd | lia].
  - unfold on_rejected. cbn.
    destruct (retries s <=? 0); cbn; (split; [exact Hd|]); [lia|].
    rewrite Hd. specialize (Htimer (now s + Z.of_N dt)). lia.
  - rewrite attempt_delay, attempt_timeouts, attempt_phase, attempt_now.
    cbn. split; [exact Hd | exact Hph].
Qed.

Lemma elapsed_run (w : W) (n d t0 : Z) (fuel : nat) :
  (forall t, t + d <= fires_at t d) ->
  elapsed d t0 (run fuel (idle w n d t0)).
Proof.
  intros Htimer. apply (run_invariant (elapsed d t0)).
  - intros s1 s2 H1 Hstep. eapply elapsed_step; eauto.
  - unfold elapsed. cbn. split; [reflexivity | lia].
Qed.

(** What a rejected [retryOperation] says about the execution. *)
Lemma failed_history (w : W) (n : Z) (s : State) (err : JsError E) :
  tallied s -> accounted n s -> faithful operation w s ->
  phase s = Failed err ->
  err = retries_exhausted
  /\ invocations s = (Z.to_nat n + 1)%nat
  /\ retries s = Z.min n 0
  /\ forall i, (i <= Z.to_nat n)%nat ->
               kind_of (nth_promise i w) = KRejects.
Proof.
  intros (_ & Ht) (_ & Hr & Hsign) (_ & Hf) Hp. rewrite Hp in Ht, Hf.
  destruct Ht as (Hk & _ & Hle & Herr).
  assert (Hinv : invocations s = (Z.to_nat n + 1)%nat) by lia.
  repeat split; auto; [lia|].
  intros i Hi. apply Hf. lia.
Qed.

(** What a fulfilled [retryOperation] says about the execution. *)
Lemma succeeded_history (w : W) (s : State) (v : V) :
  tallied s -> faithful operation w s ->
  phase s = Succeeded v ->
  exists j dt,
    invocations s = S j
    /\ nth_promise j w = Fulfills dt v
    /\ forall i, (i < j)%nat -> kind_of (nth_promise i w) = KRejects.
Proof.
  intros (_ & Ht) (_ & Hf) Hp. rewrite Hp in Ht, Hf.
  destruct Ht as (Hk & _).
  destruct Hf as ((dt & Hprom) & Hfail).
  exists (Nat.pred (invocations s)), dt.
  repeat split; auto; lia.
Qed.

(** With exact decrements, at most max(n, 0) timers are set. *)
Lemma invocations_bound (n : Z) (s : State) :
  tallied s -> accounted n s ->
  (invocations s <= Z.to_nat n + 1)%nat.
Proof.
  intros (_ & Ht) (_ & Hr & Hsign).
  destruct (phase s); lia.
Qed.

(** X2: for retries = n <= 2^53 there is one "Retries Left: " line per
    invocation, and the lines count down from n by one: the line of
    invocation i + 1 prints n - i. *)
Theorem logs_count_down (w : W) (n d t0 : Z) (fuel : nat) :
  n <= 2 ^ 53 ->
  let s := retryOperation operation fires_at fuel w n d t0 in
  rev (logged (trace s)) =
    map (fun i => n - Z.of_nat i) (seq 0 (invocations s))
  /\ List.length (logged (trace s)) = invocations s.
Proof.
  intros Hmax. cbn zeta. unfold retryOperation.
  destruct (accounted_run w n d t0 fuel Hmax) as (Hlog & _).
  split; [exact Hlog|].
  rewrite <- length_rev, Hlog, length_map, length_seq. reflexivity.
Qed.

(** X3: for retries = n <= 2^53 and an operation of which every call
    returns a promise, the promise of retryOperation is rejected only when
    every attempt allowed has been made and has failed: the error is then
    the retries-exhausted one, the operation was invoked max(n, 0) + 1
    times, each of these invocations was rejected, and the counter is
    min(n, 0). *)
Theorem rejected_only_when_all_failed (w : W) (n d t0 : Z) (fuel : nat)
  (err : JsError E) :
  n <= 2 ^ 53 ->
  let s := retryOperation operation fires_at fuel w n d t0 in
  phase s = Failed err ->
  err = retries_exhausted
  /\ invocations s = (Z.to_nat n + 1)%nat
  /\ retries s = Z.min n 0
  /\ forall i, (i <= Z.to_nat n)%nat ->
               kind_of (nth_promise i w) = KRejects.
Proof.
  intros Hmax. cbn zeta. unfold retryOperation.
  apply failed_history;
    [apply tallied_run | apply accounted_run, Hmax | apply faithful_run].
Qed.

(** X4: when the promise of retryOperation is fulfilled with v, v is the
    value of the last invocation of the operation and every invocation
    before it was rejected; for retries = n <= 2^53 there were at most
    max(n, 0) earlier ones. *)
Theorem fulfilled_with_last_attempt (w : W) (n d t0 : Z) (fuel : nat)
  (v : V) :
  let s := retryOperation operation fires_at fuel w n d t0 in
  phase s = Succeeded v ->
  exists j dt,
    invocations s = S j
    /\ nth_promise j w = Fulfills dt v
    /\ (forall i, (i < j)%nat -> kind_of (nth_promise i w) = KRejects)
    /\ (n <= 2 ^ 53 -> (j <= Z.to_nat n)%nat).
Proof.
  cbn zeta. unfold retryOperation. intros Hp.
  destruct (succeeded_history w _ v (tallied_run w n d t0 fuel)
              (faithful_run w n d t0 fuel) Hp)
    as (j & dt & Hinv & Hprom & Hfail).
  exists j, dt. repeat split; auto.
  intros Hmax.
  pose proof (invocations_bound n _ (tallied_run w n d t0 fuel)
                (accounted_run w n d t0 fuel Hmax)).
  lia.
Qed.

(** X5: retryOperation puts no time limit on an attempt.  When the first k
    invocations fail, with k <= retries <= 2^53, and the promise of
    invocation k + 1 never settles, the promise of retryOperation never
    settles either: after 2k + 1 turns no callback is left to run, the
    machine is still attempting, and no timer was set for another
    attempt. *)
Theorem pending_attempt_hangs (w : W) (n d t0 : Z) (k : nat) (fuel : nat) :
  Z.of_nat k <= n ->
  n <= 2 ^ 53 ->
  (forall i, (i < k)%nat -> kind_of (nth_promise i w) = KRejects) ->
  nth_promise k w = NeverSettles ->
  (2 * k + 1 <= fuel)%nat ->
  let s := retryOperation operation fires_at fuel w n d t0 in
  phase s = Attempting NeverSettles
  /\ step s = None
  /\ terminal s = false
  /\ invocations s = (k + 1)%nat
  /\ settlements (trace s) = 0%nat
  /\ List.length (timeout_times (trace s)) = k.
Proof.
  intros Hk Hmax Hfail Hpend Hfuel. cbn zeta. unfold retryOperation.
  destruct (retry_loop k (idle w n d t0) (idle_ready w n d t0) Hk Hmax Hfail)
    as (Hready & _ & _ & Hw & Hi).
  destruct (step_ready _ Hready) as (s1 & Hs1 & Hp1 & _ & _ & _ & Hi1).
  rewrite Hw in Hp1. change (world (idle w n d t0)) with w in Hp1.
  assert (Hprom : phase s1 = Attempting NeverSettles).
  { rewrite Hp1. f_equal. exact Hpend. }
  assert (Hstuck : step s1 = None) by (unfold step; rewrite Hprom; reflexivity).
  assert (Hrun : run fuel (idle w n d t0) = s1).
  { rewrite (run_split (2 * k) fuel) by lia.
    destruct (fuel - 2 * k)%nat as [|rest] eqn:Hrest; [lia|].
    rewrite (run_step _ _ _ Hs1). apply run_stuck, Hstuck. }
  pose proof (tallied_run w n d t0 fuel) as (Hset & Htal).
  rewrite Hrun in *. unfold terminal in *. rewrite Hprom in *.
  change (invocations (idle w n d t0)) with 0%nat in Hi.
  repeat split; auto; lia.
Qed.

(** X6: when the host runs a callback set with [setTimeout(f, d)] no
    earlier than [d] after it was set, a retryOperation call that settles
    after k invocations does so no earlier than (k - 1) * d after the call;
    a call with retries = n, 0 <= n <= 2^53, that is rejected is rejected
    no earlier than n * d after the call. *)
Theorem settling_takes_the_delays (w : W) (n d t0 : Z) (fuel : nat) :
  (forall t, t + d <= fires_at t d) ->
  let s := retryOperation operation fires_at fuel w n d t0 in
  (terminal s = true -> t0 + d * (Z.of_nat (invocations s) - 1) <= now s)
  /\ (0 <= n <= 2 ^ 53 ->
      forall err, phase s = Failed err -> t0 + d * n <= now s).
Proof.
  intros Htimer. cbn zeta. unfold retryOperation.
  set (s := run fuel (idle w n d t0)).
  pose proof (elapsed_run w n d t0 fuel Htimer) as (_ & Hel).
  pose proof (tallied_run w n d t0 fuel) as Htal.
  pose proof (faithful_run w n d t0 fuel) as Hfa.
  fold s in Hel, Htal, Hfa. cbn zeta in Hel.
  assert (Hterm : terminal s = true ->
                  t0 + d * (Z.of_nat (invocations s) - 1) <= now s).
  { intros Ht. destruct Htal as (_ & Ha). unfold terminal in Ht.
    destruct (phase s); try discriminate;
      destruct Ha as (Hk & _);
      replace (Z.of_nat (invocations s) - 1)
        with (Z.of_nat (List.length (timeout_times (trace s)))) by lia;
      exact Hel. }
  split; [exact Hterm|].
  intros Hn err Hp.
  pose proof (accounted_run w n d t0 fuel ltac:(lia)) as Hacc. fold s in Hacc.
  destruct (failed_history w n s err Htal Hacc Hfa Hp) as (_ & Hinv & _).
  assert (Ht : terminal s = true) by (unfold terminal; rewrite Hp; reflexivity).
  specialize (Hterm Ht). rewrite Hinv in Hterm.
  replace (Z.of_nat (Z.to_nat n + 1) - 1) with n in Hterm by lia.
  exact Hterm.
Qed.

(** X7: [resolve] or [reject] is called at most once in a retryOperation
    call: never while the machine is idle, attempting or waiting, and
    exactly once, as the last event, when it has succeeded or failed. *)
Theorem settles_at_most_once (w : W) (n d t0 : Z) (fuel : nat) :
  let s := retryOperation operation fires_at fuel w n d t0 in
  settlements (trace s) = (if terminal s then 1 else 0)%nat
  /\ (forall v, phase s = Succeeded v ->
                hd_error (trace s) = Some (Resolve v))
  /\ (forall err, phase s = Failed err ->
                  hd_error (trace s) = Some (Reject err)).
Proof.
  cbn zeta. unfold retryOperation.
  destruct (tallied_run w n d t0 fuel) as (Hset & Ha).
  split; [exact Hset|].
  split; [intros v Hp | intros err Hp]; rewrite Hp in Ha; tauto.
Qed.

(** X8: raising the number of retries does not change a success.  When a
    call with retries = n >= 0 is fulfilled with v, a call with any
    retries n' from n to 2^53, with the same operation, world, delay and
    start, is fulfilled with v after the same number of invocations. *)
Theorem more_retries_keep_success (w : W) (n d t0 : Z) (fuel : nat) (v : V)
  (n' : Z) (fuel' : nat) :
  0 <= n -> n <= n' -> n' <= 2 ^ 53 ->
  phase (retryOperation operation fires_at fuel w n d t0) = Succeeded v ->
  (2 * invocations (retryOperation operation fires_at fuel w n d t0)
   <= fuel')%nat ->
  let s := retryOperation operation fires_at fuel w n d t0 in
  let s' := retryOperation operation fires_at fuel' w n' d t0 in
  phase s' = Succeeded v /\ invocations s' = invocations s.
Proof.
  intros Hn Hle Hmax Hp Hfuel. cbn zeta. unfold retryOperation in *.
  destruct (succeeded_history w _ v (tallied_run w n d t0 fuel)
              (faithful_run w n d t0 fuel) Hp)
    as (j & dt & Hinv & Hprom & Hfail).
  pose proof (invocations_bound n _ (tallied_run w n d t0 fuel)
                (accounted_run w n d t0 fuel ltac:(lia))) as Hbound.
  rewrite Hinv in *.
  destruct (fails_then_fulfilled j (idle w n' d t0) dt v fuel')
    as (Hp' & Hi' & _); auto using idle_ready; try (cbn; lia).
  split; [exact Hp'|]. rewrite Hi'. cbn. lia.
Qed.

End RetryFacts.

(** ** Two executions that differ in the failure reasons only *)

Section Reasons.

Variables V1 E1 W1 V2 E2 W2 : Type.
Variable op1 : W1 -> Promise V1 E1 * W1.
Variable op2 : W2 -> Promise V2 E2 * W2.
Variables timer1 timer2 : Z -> Z -> Z.

Local Abbreviation same_kinds := (same_kinds op1 op2).
Local Abbreviation alike := (alike op1 op2).

Lemma alike_attempt (s1 : State V1 E1 W1) (s2 : State V2 E2 W2) :
  retries s1 = retries s2 ->
  invocations s1 = invocations s2 ->
  same_kinds (world s1) (world s2) ->
  alike (attemptOperation V1 E1 W1 op1 s1) (attemptOperation V2 E2 W2 op2 s2).
Proof.
  intros Hr Hi Hk. unfold alike.
  rewrite !attempt_phase, !attempt_retries, !attempt_invocations,
    !attempt_world.
  cbn. repeat split; auto.
  - apply (Hk 0%nat).
  - intros i. apply (Hk (S i)).
Qed.

Lemma alike_step (s1 : State V1 E1 W1) (s2 : State V2 E2 W2) :
  alike s1 s2 ->
  match step op1 timer1 s1, step op2 timer2 s2 with
  | Some s1', Some s2' => alike s1' s2'
  | None, None => True
  | _, _ => False
  end.
Proof.
  intros (Hst & Hpk & Hr & Hi & Hk). unfold step.
  destruct (phase s1) as [|[dt1 v1|dt1 e1|]|wake1|v1|err1] eqn:Hp1;
    destruct (phase s2) as [|[dt2 v2|dt2 e2|]|wake2|v2|err2] eqn:Hp2;
    try discriminate; try exact I.
  - apply alike_attempt; auto.
  - unfold alike, invocations. cbn. auto.
  - unfold alike, invocations, on_rejected. cbn. rewrite <- Hr.
    destruct (retries s1 <=? 0); cbn; repeat split; auto; lia.
  - apply alike_attempt; auto.
Qed.

Lemma alike_run (fuel : nat) :
  forall (s1 : State V1 E1 W1) (s2 : State V2 E2 W2),
    alike s1 s2 ->
    alike (run op1 timer1 fuel s1) (run op2 timer2 fuel s2).
Proof.
  induction fuel as [|fuel IH]; intros s1 s2 H; cbn; [exact H|].
  pose proof (alike_step s1 s2 H) as Hstep.
  destruct (step op1 timer1 s1), (step op2 timer2 s2);
    try contradiction; auto.
Qed.

(** C8: two executions of retryOperation with the same maxRetries, whose
    operations settle the same way (fulfilled, rejected or pending)
    attempt by attempt, invoke the operation the same number of times and
    are in the same state of the machine, with the same counter, after any
    number of turns, whatever the failure reasons (and the values, the
    delays and the timers) are. *)
Theorem retry_ignores_reasons (w1 : W1) (w2 : W2) (n d1 d2 t1 t2 : Z)
  (fuel : nat) :
  (forall i, kind_of (nth_promise op1 i w1) = kind_of (nth_promise op2 i w2)) ->
  let s1 := retryOperation op1 timer1 fuel w1 n d1 t1 in
  let s2 := retryOperation op2 timer2 fuel w2 n d2 t2 in
  invocations s1 = invocations s2
  /\ spec_state (phase s1) = spec_state (phase s2)
  /\ retries s1 = retries s2.
Proof.
  intros Hk. cbn zeta. unfold retryOperation.
  destruct (alike_run fuel (idle w1 n d1 t1) (idle w2 n d2 t2))
    as (Hst & _ & Hr & Hi & _); [|auto].
  unfold alike. cbn. auto.
Qed.

End Reasons.

(** ** The theorems at concrete operations *)

(** The two scenarios of the specification. *)
Example scenario_42 :
  let s := retryOperation (fails_then_succeeds 2 "network error" 42)
             exact_timer 6 O 3 1 0 in
  phase s = Succeeded 42 /\ invocations s = 3%nat /\ world s = 3%nat.
Proof. vm_compute. auto. Qed.

Example scenario_timeout :
  let s := retryOperation (always_fails "timeout") exact_timer 6 O 2 1 0 in
  phase s = Failed retries_exhausted /\ invocations s = 3%nat.
Proof. vm_compute. auto. Qed.

(** C3 as the specification words it fails: with maxRetries = 0 and an
    operation that always fails with "timeout", the promise is rejected with
    an error that does not carry "timeout"; it is the very error obtained
    when the operation fails with "network error" instead. *)
Lemma exhausted_error_swallows_reason :
  let s := retryOperation (always_fails "timeout") exact_timer 2 O 0 1 0 in
  let s' :=
    retryOperation (always_fails "network error") exact_timer 2 O 0 1 0 in
  exists err : JsError string,
    phase s = Failed err
    /\ ~ carries_reason err "timeout"%string
    /\ message err = "Maximum retries exhausted!"%string
    /\ phase s' = Failed err.
Proof.
  exists retries_exhausted. repeat split; try reflexivity.
  unfold carries_reason. cbn. discriminate.
Qed.

Lemma always_failing_invoked_n_plus_1_witness :
  let s := retryOperation (always_fails "timeout") exact_timer 6 O 2 1 0 in
  phase s = Failed retries_exhausted
  /\ invocations s = 3%nat
  /\ hd_error (trace s) = Some (Reject retries_exhausted).
Proof.
  apply (always_failing_invoked_n_plus_1 Z string nat
           (always_fails "timeout") exact_timer O 2 1 0 6).
  - lia.
  - intros i _. reflexivity.
  - cbn. lia.
Defined.

Lemma fails_k_times_then_succeeds_witness :
  let s := retryOperation (fails_then_succeeds 2 "network error" 42)
             exact_timer 6 O 3 1 0 in
  phase s = Succeeded 42
  /\ invocations s = 3%nat
  /\ hd_error (trace s) = Some (Resolve 42).
Proof.
  apply (fails_k_times_then_succeeds Z string nat
           (fails_then_succeeds 2 "network error" 42) exact_timer
           O 3 1 0 2 3%N 42 6).
  - lia.
  - cbn. lia.
  - intros i Hi. destruct i as [|[|i]]; [reflexivity | reflexivity | lia].
  - reflexivity.
  - cbn. lia.
Defined.

Lemma exhausted_error_is_fixed_witness :
  let s := retryOperation (always_fails "timeout") exact_timer 1 O 0 1 0 in
  exists s',
    step (always_fails "timeout") exact_timer s = Some s'
    /\ phase s' = Failed (MkError "Maximum retries exhausted!" None)
    /\ hd_error (trace s') =
         Some (Reject (MkError "Maximum retries exhausted!" None))
    /\ invocations s' = invocations s
    /\ step (always_fails "timeout") exact_timer s' = None.
Proof.
  apply (exhausted_error_is_fixed Z string nat (always_fails "timeout")
           exact_timer
           (retryOperation (always_fails "timeout") exact_timer 1 O 0 1 0)
           0%N "timeout"%string).
  - reflexivity.
  - cbn. lia.
Defined.

Lemma first_success_wins_witness :
  let op := fails_then_succeeds 0 "network error" 42 in
  let s := retryOperation op exact_timer 2 O 3 1 0 in
  (phase s = Succeeded 42 /\ invocations s = 1%nat /\ world s = 1%nat)
  /\ (forall (s0 : State Z string nat) (v0 : Z),
        phase s0 = Succeeded v0 ->
        step op exact_timer s0 = None
        /\ forall more, run op exact_timer more s0 = s0).
Proof.
  apply (first_success_wins Z string nat
           (fails_then_succeeds 0 "network error" 42) exact_timer
           O 3 1 0 3%N 42 2).
  - reflexivity.
  - lia.
Defined.


Example attempts_at_0_5_10 :
  invoke_times
    (trace (retryOperation (always_fails "timeout") exact_timer 6 O 2 5 0))
  = [10; 5; 0].
Proof. reflexivity. Qed.

Lemma follows_state_machine_witness :
  let op := fails_then_succeeds 2 "network error" 42 in
  let s := retryOperation op exact_timer 2 O 3 0 0 in
  option_map abstract (step op exact_timer s) =
    spec_next (spec_state (phase s)) (retries s) (pending_kind (phase s))
  /\ (forall dt e,
        phase s = Attempting (Rejects dt e) -> 0 < retries s ->
        exists s', step op exact_timer s = Some s'
                   /\ spec_state (phase s') = SWaiting
                   /\ retries s' = retries s - 1)
  /\ (forall s',
        step op exact_timer s = Some s' -> retries s' <> retries s ->
        spec_state (phase s) = SAttempting
        /\ spec_state (phase s') = SWaiting
        /\ retries s' = retries s - 1)
  /\ (forall s',
        step op exact_timer s = Some s' ->
        spec_state (phase s') = SAttempting
        \/ invocations s' <> invocations s ->
        (spec_state (phase s) = SIdle \/ spec_state (phase s) = SWaiting)
        /\ invocations s' = S (invocations s))
  /\ (terminal s = true ->
      step op exact_timer s = None
      /\ forall more, run op exact_timer more s = s).
Proof.
  apply (follows_state_machine Z string nat
           (fails_then_succeeds 2 "network error" 42) exact_timer
           O 3 0 0 2).
  lia.
Defined.

Lemma retry_terminates_witness :
  let op := fails_then_succeeds 2 "network error" 42 in
  let s := retryOperation op exact_timer 8 O 3 1 0 in
  terminal s = true
  /\ (1 <= invocations s <= 4)%nat
  /\ forall fuel, (8 <= fuel)%nat ->
                  retryOperation op exact_timer fuel O 3 1 0 = s.
Proof.
  apply (retry_terminates Z string nat
           (fails_then_succeeds 2 "network error" 42) exact_timer O 3 1 0).
  - lia.
  - intros i Hi. unfold settles.
    do 4 (destruct i as [|i]; [cbv; discriminate|]).
    cbn in Hi. lia.
Defined.

Lemma retry_ignores_reasons_witness :
  let s1 := retryOperation (always_fails "timeout") exact_timer 4 O 2 1 0 in
  let s2 :=
    retryOperation (always_fails "network error") exact_timer 4 O 2 7 3 in
  invocations s1 = invocations s2
  /\ spec_state (phase s1) = spec_state (phase s2)
  /\ retries s1 = retries s2.
Proof.
  apply (retry_ignores_reasons Z string nat Z string nat
           (always_fails "timeout") (always_fails "network error")
           exact_timer exact_timer O O 2 1 7 0 3 4).
  intros i. reflexivity.
Defined.

Lemma retries_never_negative_witness :
  let op := always_fails "timeout" in
  let s := retryOperation op exact_timer 3 O 2 1 0 in
  0 <= retries s <= 2
  /\ delay s = 1
  /\ retries s = 2 - Z.of_nat (List.length (timeout_times (trace s)))
  /\ (forall dt e,
        phase s = Attempting (Rejects dt e) -> 0 < retries s ->
        exists s', step op exact_timer s = Some s'
                   /\ retries s' = retries s - 1
                   /\ spec_state (phase s') = SWaiting
                   /\ delay s' = 1)
  /\ (forall dt e,
        phase s = Attempting (Rejects dt e) -> retries s = 0 ->
        exists s', step op exact_timer s = Some s'
                   /\ retries s' = 0
                   /\ spec_state (phase s') = SFailed)
  /\ forall s',
       step op exact_timer s = Some s' ->
       delay s' = 1
       /\ 0 <= retries s'
       /\ (retries s' = retries s
           \/ (0 < retries s
               /\ retries s' = retries s - 1
               /\ (exists dt e, phase s = Attempting (Rejects dt e))
               /\ spec_state (phase s') = SWaiting)).
Proof.
  apply (retries_never_negative Z string nat (always_fails "timeout")
           exact_timer O 2 1 0 3).
  lia.
Defined.

Lemma negative_retries_like_zero_witness :
  let s := retryOperation (always_fails "timeout") exact_timer 2 O (-5) 1 0 in
  let z := retryOperation (always_fails "timeout") exact_timer 2 O 0 1 0 in
  phase s = Failed retries_exhausted
  /\ invocations s = 1%nat
  /\ phase z = phase s
  /\ invocations z = invocations s
  /\ world z = world s
  /\ trace s =
       [Reject retries_exhausted; Invoke 0; ConsoleLog "Retries Left: " (-5)]
  /\ trace z =
       [Reject retries_exhausted; Invoke 0; ConsoleLog "Retries Left: " 0].
Proof.
  apply (negative_retries_like_zero Z string nat (always_fails "timeout")
           exact_timer O (-5) 1 0 2).
  - lia.
  - reflexivity.
  - lia.
Defined.

(** ** The operation and the client of the source file *)

Section FetchFacts.

Variables R V E W : Type.
Variable fetch : string -> W -> Promise R E * W.
Variable json : R -> Promise V E.
Variable fires_at : Z -> Z -> Z.

Local Abbreviation fetchData := (fetchData fetch json).
Local Abbreviation fetched := (nth_promise (fetch todo_url)).

Lemma fetch_world (i : nat) : forall w : W,
  world_after fetchData i w = world_after (fetch todo_url) i w.
Proof.
  induction i as [|i IH]; intros w; [reflexivity|].
  cbn. rewrite <- IH. f_equal.
  unfold fetchData.
  destruct (fetch todo_url w); reflexivity.
Qed.

Lemma fetch_promise (i : nat) (w : W) :
  nth_promise fetchData i w = then_ (fetched i w) json.
Proof.
  unfold nth_promise. rewrite fetch_world. unfold fetchData.
  destruct (fetch todo_url (world_after (fetch todo_url) i w)); reflexivity.
Qed.

Lemma no_data_rejects (p : Promise R E) :
  gives_no_data json p <-> kind_of (then_ p json) = KRejects.
Proof.
  unfold gives_no_data, then_. destruct p as [dt r|dt e|]; cbn.
  - destruct (json r); cbn; split; auto; discriminate.
  - tauto.
  - split; [contradiction | discriminate].
Qed.

Lemma data_fulfils (p : Promise R E) (v : V) :
  gives_data json p v <-> exists dt, then_ p json = Fulfills dt v.
Proof.
  unfold gives_data, then_. destruct p as [dt r|dt e|]; cbn.
  - destruct (json r) as [dt' v'|dt' e'|]; split; intros (x & Hx);
      try discriminate; inversion Hx; subst; eauto.
  - split; [contradiction | intros (x & Hx); discriminate].
  - split; [contradiction | intros (x & Hx); discriminate].
Qed.

(** X9: under retryOperation, fetchData is retried both when the request
    fails and when the body of the response does not parse.  With
    retries = n, 0 <= n <= 2^53, and k <= n, when the first k requests give no data and
    request k + 1 is answered with a body that parses to v, the promise is
    fulfilled with v and the host's fetch has been called k + 1 times, with
    the URL of the source. *)
Theorem fetch_retried_until_data (w : W) (n d t0 : Z) (k : nat) (v : V)
  (fuel : nat) :
  0 <= n <= 2 ^ 53 ->
  (k <= Z.to_nat n)%nat ->
  (forall i, (i < k)%nat -> gives_no_data json (fetched i w)) ->
  gives_data json (fetched k w) v ->
  (2 * k + 2 <= fuel)%nat ->
  let s := retryOperation fetchData fires_at fuel w n d t0 in
  phase s = Succeeded v
  /\ invocations s = (k + 1)%nat
  /\ world s = world_after (fetch todo_url) (k + 1) w.
Proof.
  intros Hn Hk Hno Hdata Hfuel. cbn zeta. unfold retryOperation.
  apply data_fulfils in Hdata. destruct Hdata as (dt & Hdata).
  rewrite <- fetch_promise in Hdata.
  destruct (fails_then_fulfilled _ _ _ fetchData fires_at k
              (idle w n d t0) dt v fuel) as (Hp & Hi & _);
    auto using idle_ready; try (cbn; lia).
  { intros i Hi. cbn. rewrite fetch_promise. apply no_data_rejects, Hno, Hi. }
  destruct (faithful_run _ _ _ fetchData fires_at w n d t0 fuel) as (Hw & _).
  rewrite Hw, Hi, fetch_world. cbn. auto.
Qed.

(** X10: the client, retryOperation(fetchData, 3, 1) with its two
    reactions, prints one line once the call has settled, whatever the
    network does, provided the first four attempts settle.  Either all four
    requests gave no data, and the line is the retries-exhausted error, or
    the line is "Finally Data Is Here: " with the data of the first
    request that gave some, and no request was made after that one. *)
Theorem client_prints_one_line (w : W) (t0 : Z) (fuel : nat) :
  (forall i, (i <= 3)%nat -> settles (nth_promise fetchData i w)) ->
  (8 <= fuel)%nat ->
  let s := client fetch json fires_at fuel w t0 in
  world s = world_after (fetch todo_url) (invocations s) w
  /\ ((client_prints (phase s) = Some (LogError retries_exhausted)
       /\ invocations s = 4%nat
       /\ forall i, (i <= 3)%nat -> gives_no_data json (fetched i w))
      \/ (exists j v,
            client_prints (phase s) =
              Some (LogData "Finally Data Is Here: " v)
            /\ invocations s = S j
            /\ (j <= 3)%nat
            /\ gives_data json (fetched j w) v
            /\ forall i, (i < j)%nat -> gives_no_data json (fetched i w))).
Proof.
  intros Hsettle Hfuel. cbn zeta. unfold client, retryOperation.
  destruct (settles_within _ _ _ fetchData fires_at 3 (idle w 3 1 t0))
    as (Hterm & _); auto using idle_ready; try (cbn; lia).
  rewrite (run_split _ _ _ fetchData fires_at 8 fuel) by exact Hfuel.
  change (2 * 3 + 2)%nat with 8%nat in Hterm.
  rewrite run_terminal by exact Hterm.
  set (s := run fetchData fires_at 8 (idle w 3 1 t0)) in *.
  pose proof (tallied_run _ _ _ fetchData fires_at w 3 1 t0 8) as Htal.
  pose proof (accounted_run _ _ _ fetchData fires_at w 3 1 t0 8 ltac:(lia))
    as Hacc.
  pose proof (faithful_run _ _ _ fetchData fires_at w 3 1 t0 8) as Hfa.
  fold s in Htal, Hacc, Hfa.
  split; [destruct Hfa as (Hw & _); rewrite Hw; apply fetch_world|].
  unfold terminal in Hterm.
  destruct (phase s) as [|p|wake|v|err] eqn:Hp; try discriminate.
  - right.
    destruct (succeeded_history _ _ _ fetchData w s v Htal Hfa Hp)
      as (j & dt & Hinv & Hprom & Hfail).
    pose proof (invocations_bound _ _ _ 3 s Htal Hacc) as Hj.
    change (Z.to_nat 3) with 3%nat in Hj.
    exists j, v. repeat split; auto; try lia.
    + apply data_fulfils. exists dt. rewrite <- fetch_promise. exact Hprom.
    + intros i Hi. apply no_data_rejects. rewrite <- fetch_promise.
      apply Hfail, Hi.
  - left.
    destruct (failed_history _ _ _ fetchData w 3 s err Htal Hacc Hfa Hp)
      as (Herr & Hinv & _ & Hfail).
    change (Z.to_nat 3) with 3%nat in Hinv, Hfail. subst err.
    repeat split; auto.
    intros i Hi. apply no_data_rejects. rewrite <- fetch_promise.
    apply Hfail, Hi.
Qed.

End FetchFacts.

(** ** Where the claims stop holding *)

Lemma fails_then_succeeds_world (k : nat) (reason : string) (v : Z)
  (i : nat) : forall calls : nat,
  world_after (fails_then_succeeds k reason v) i calls = (i + calls)%nat.
Proof.
  induction i as [|i IH]; intros calls; [reflexivity|].
  cbn [world_after]. rewrite IH. cbn [fails_then_succeeds snd]. lia.
Qed.

Lemma fails_then_succeeds_promise (k : nat) (reason : string) (v : Z)
  (i : nat) :
  nth_promise (fails_then_succeeds k reason v) i O =
  if Nat.ltb i k then Rejects 2%N reason else Fulfills 3%N v.
Proof.
  unfold nth_promise. rewrite fails_then_succeeds_world, Nat.add_0_r.
  reflexivity.
Qed.

(** C1 as the specification words it fails for large numbers: with
    maxRetries = 2^60 and an operation that always fails, [retries--]
    leaves the counter at 2^60, so the promise is never rejected, however
    long the execution runs. *)
Lemma huge_retries_never_exhausted :
  let n := 2 ^ 60 in
  let op := always_fails "timeout" in
  0 <= n
  /\ (forall i, kind_of (nth_promise op i O) = KRejects)
  /\ forall fuel,
       retries (retryOperation op exact_timer fuel O n 1 0) = n
       /\ forall err,
            phase (retryOperation op exact_timer fuel O n 1 0) <> Failed err.
Proof.
  cbv zeta. split; [lia|]. split; [intros i; reflexivity|].
  intros fuel. unfold retryOperation.
  apply (stuck_counter_never_rejects Z string nat (always_fails "timeout")
           exact_timer (2 ^ 60)).
  - lia.
  - vm_compute. reflexivity.
  - reflexivity.
  - intros err. discriminate.
Qed.

(** C2 as the specification words it fails at one number: with
    maxRetries = n = 2^53 + 2 and k = n, the first [retries--] takes the
    counter to 2^53, so failure number k finds it at 0 and rejects the
    promise: invocation k + 1, which would succeed, is never made. *)
Lemma retries_2_53_plus_2_fall_one_short :
  let n := 2 ^ 53 + 2 in
  let k := Z.to_nat n in
  let op := fails_then_succeeds k "network error" 42 in
  let s := retryOperation op exact_timer (2 * k) O n 1 0 in
  0 <= n
  /\ (k <= Z.to_nat n)%nat
  /\ (forall i, (i < k)%nat -> kind_of (nth_promise op i O) = KRejects)
  /\ nth_promise op k O = Fulfills 3%N 42
  /\ phase s = Failed retries_exhausted
  /\ invocations s = k.
Proof.
  intros n k op s.
  assert (Hk : Z.of_nat k = 2 ^ 53 + 2) by (unfold k, n; lia).
  assert (Hfail : forall i, (i < k)%nat ->
                            kind_of (nth_promise op i O) = KRejects).
  { intros i Hi. unfold op. rewrite fails_then_succeeds_promise.
    apply Nat.ltb_lt in Hi. rewrite Hi. reflexivity. }
  split; [unfold n; lia|]. split; [apply le_n|]. split; [exact Hfail|].
  split.
  { unfold op. rewrite fails_then_succeeds_promise, Nat.ltb_irrefl.
    reflexivity. }
  exact (short_budget_from_idle Z string nat op exact_timer k O 1 0
           (2 * k) Hk Hfail (le_n (2 * k))).
Qed.


(** C6 as the specification words it fails for large numbers: with
    maxRetries = 2^60 a failed attempt goes from Attempting to Waiting and
    the counter is what it was. *)
Lemma huge_counter_is_not_decremented :
  let op := always_fails "timeout" in
  let s := retryOperation op exact_timer 1 O (2 ^ 60) 0 0 in
  0 <= 2 ^ 60
  /\ phase s = Attempting (Rejects 0%N "timeout"%string)
  /\ 0 < retries s
  /\ exists s',
       step op exact_timer s = Some s'
       /\ spec_state (phase s') = SWaiting
       /\ retries s' = retries s
       /\ retries s' <> retries s - 1.
Proof.
  cbv zeta. split; [lia|]. split; [reflexivity|]. split; [reflexivity|].
  eexists. split; [reflexivity|]. split; [reflexivity|].
  split; [vm_compute; reflexivity|]. vm_compute. discriminate.
Qed.

(** C7 as the specification words it fails for large numbers: with
    maxRetries = 2^53 + 4 and an operation whose every invocation settles,
    by failing, the counter never moves and retryOperation never
    settles. *)
Lemma huge_retries_never_terminate :
  let n := 2 ^ 53 + 4 in
  let op := always_fails "timeout" in
  0 <= n
  /\ (forall i, settles (nth_promise op i O))
  /\ forall fuel,
       terminal (retryOperation op exact_timer fuel O n 1 0) = false.
Proof.
  cbv zeta. split; [lia|]. split; [intros i; discriminate|].
  intros fuel. unfold retryOperation.
  apply (stuck_counter_never_settles Z string nat (always_fails "timeout")
           exact_timer (2 ^ 53 + 4)).
  - lia.
  - vm_compute. reflexivity.
  - intros w. reflexivity.
  - reflexivity.
  - reflexivity.
Qed.

(** C9 as the specification words it fails at one number: with
    maxRetries = 2^53 + 2 the failure that triggers the first retry takes
    2 off the counter. *)
Lemma decrement_at_2_53_plus_2_takes_two :
  let op := always_fails "timeout" in
  let s := retryOperation op exact_timer 1 O (2 ^ 53 + 2) 1 0 in
  0 <= 2 ^ 53 + 2
  /\ phase s = Attempting (Rejects 0%N "timeout"%string)
  /\ 0 < retries s
  /\ exists s',
       step op exact_timer s = Some s'
       /\ spec_state (phase s') = SWaiting
       /\ retries s' = retries s - 2.
Proof.
  cbv zeta. split; [lia|]. split; [reflexivity|]. split; [reflexivity|].
  eexists. split; [reflexivity|]. split; [reflexivity|].
  vm_compute. reflexivity.
Qed.

(** ** The further theorems at concrete operations *)

Lemma rejected_only_when_all_failed_witness :
  let s := retryOperation (always_fails "timeout") exact_timer 6 O 2 1 0 in
  @retries_exhausted string = retries_exhausted
  /\ invocations s = 3%nat
  /\ retries s = 0
  /\ forall i, (i <= 2)%nat ->
               kind_of (nth_promise (always_fails "timeout") i O) = KRejects.
Proof.
  apply (rejected_only_when_all_failed Z string nat (always_fails "timeout")
           exact_timer O 2 1 0 6 retries_exhausted).
  - lia.
  - reflexivity.
Defined.

Lemma fulfilled_with_last_attempt_witness :
  let op := fails_then_succeeds 2 "network error" 42 in
  let s := retryOperation op exact_timer 6 O 3 1 0 in
  exists j dt,
    invocations s = S j
    /\ nth_promise op j O = Fulfills dt 42
    /\ (forall i, (i < j)%nat -> kind_of (nth_promise op i O) = KRejects)
    /\ (3 <= 2 ^ 53 -> (j <= 3)%nat).
Proof.
  apply (fulfilled_with_last_attempt Z string nat
           (fails_then_succeeds 2 "network error" 42) exact_timer
           O 3 1 0 6 42).
  reflexivity.
Defined.

Lemma pending_attempt_hangs_witness :
  let op := fails_then_hangs 1 "timeout" in
  let s := retryOperation op exact_timer 5 O 2 1 0 in
  phase s = Attempting NeverSettles
  /\ step op exact_timer s = None
  /\ terminal s = false
  /\ invocations s = 2%nat
  /\ settlements (trace s) = 0%nat
  /\ List.length (timeout_times (trace s)) = 1%nat.
Proof.
  apply (pending_attempt_hangs Z string nat (fails_then_hangs 1 "timeout")
           exact_timer O 2 1 0 1 5).
  - cbn. lia.
  - lia.
  - intros i Hi. destruct i as [|i]; [reflexivity | lia].
  - reflexivity.
  - cbn. lia.
Defined.

Lemma settling_takes_the_delays_witness :
  let s := retryOperation (always_fails "timeout") exact_timer 6 O 2 5 0 in
  (terminal s = true -> 0 + 5 * (Z.of_nat (invocations s) - 1) <= now s)
  /\ (0 <= 2 <= 2 ^ 53 ->
      forall err, phase s = Failed err -> 0 + 5 * 2 <= now s).
Proof.
  apply (settling_takes_the_delays Z string nat (always_fails "timeout")
           exact_timer O 2 5 0 6).
  intros t. unfold exact_timer. lia.
Defined.

Lemma more_retries_keep_success_witness :
  let op := fails_then_succeeds 2 "network error" 42 in
  let s := retryOperation op exact_timer 6 O 3 1 0 in
  let s' := retryOperation op exact_timer 9 O 10 1 0 in
  phase s' = Succeeded 42 /\ invocations s' = invocations s.
Proof.
  apply (more_retries_keep_success Z string nat
           (fails_then_succeeds 2 "network error" 42) exact_timer
           O 3 1 0 6 42 10 9).
  - lia.
  - lia.
  - lia.
  - reflexivity.
  - cbn. lia.
Defined.

Lemma fetch_retried_until_data_witness :
  let s := retryOperation (fetchData sample_fetch sample_json) exact_timer
             6 O 3 1 0 in
  phase s = Succeeded 42
  /\ invocations s = 3%nat
  /\ world s = world_after (sample_fetch todo_url) 3 O.
Proof.
  apply (fetch_retried_until_data string Z string nat sample_fetch
           sample_json exact_timer O 3 1 0 2 42 6).
  - lia.
  - cbn. lia.
  - intros i Hi. destruct i as [|[|i]]; [exact I | reflexivity | lia].
  - exists 1%N. reflexivity.
  - cbn. lia.
Defined.

Lemma client_prints_one_line_witness :
  let s := client sample_fetch sample_json exact_timer 8 O 0 in
  let fetched i := nth_promise (sample_fetch todo_url) i O in
  world s = world_after (sample_fetch todo_url) (invocations s) O
  /\ ((client_prints (phase s) = Some (LogError retries_exhausted)
       /\ invocations s = 4%nat
       /\ forall i, (i <= 3)%nat -> gives_no_data sample_json (fetched i))
      \/ (exists j v,
            client_prints (phase s) =
              Some (LogData "Finally Data Is Here: " v)
            /\ invocations s = S j
            /\ (j <= 3)%nat
            /\ gives_data sample_json (fetched j) v
            /\ forall i, (i < j)%nat -> gives_no_data sample_json (fetched i))).
Proof.
  apply (client_prints_one_line string Z string nat sample_fetch sample_json
           exact_timer O 0 8).
  - intros i Hi. unfold settles.
    do 4 (destruct i as [|i]; [cbv; discriminate|]). lia.
  - lia.
Defined.

Example client_sample_prints_42 :
  client_prints (phase (client sample_fetch sample_json exact_timer 8 O 0))
  = Some (LogData "Finally Data Is Here: " 42).
Proof. reflexivity. Qed.

Lemma logs_count_down_witness :
  let s := retryOperation (always_fails "timeout") exact_timer 6 O 2 1 0 in
  rev (logged (trace s)) =
    map (fun i => 2 - Z.of_nat i) (seq 0 (invocations s))
  /\ List.length (logged (trace s)) = invocations s.
Proof.
  apply (logs_count_down Z string nat (always_fails "timeout") exact_timer
           O 2 1 0 6).
  lia.
Defined.

Example logs_3_retries :
  rev (logged (trace (retryOperation (always_fails "timeout") exact_timer
                        8 O 3 1 0)))
  = [3; 2; 1; 0].
Proof. reflexivity. Qed.
